(** * A shallow embedding of the read-only query governance core

    The development follows the TypeScript sources:
    - [src/validators/query-validator.ts]: the lexical read-only gate
      ([removeComments], [normalizeQuery], [startsWithAllowed],
      [findBlockedKeyword], [findBypassPattern], [validateQuery],
      [isWriteOperation], [getQueryType]);
    - [src/utils/errors.ts]: the error classes and [getErrorMessage];
    - [src/utils/formatters.ts]: [formatSuccess], [formatError],
      [truncate];
    - the logger: [sanitizeData];
    - [src/db/execute.ts]: [getSqlType], [executeQuery], [executeWrite],
      [executeScalar] and the three statement builders;
    - the tools: [sqlExecute], [sqlInsert], [sqlUpdate], [sqlDelete].

    Strings are sequences of code units below 256 (Rocq [string]): the
    texts of ECMAScript whose characters lie in U+0000..U+00FF.  The
    regular expressions of the sources are kept as syntax trees and run
    by a backtracking matcher that follows the ECMAScript priorities
    (leftmost match, alternatives left to right, greedy and lazy
    quantifiers). *)

From Stdlib Require Import String Ascii List Bool Arith ZArith Lia DecimalString.
Import ListNotations.

Local Open Scope string_scope.
Local Open Scope nat_scope.

(* ================================================================== *)
(** * ECMAScript string primitives *)
(* ================================================================== *)

Module JS.

Definition code (c : ascii) : nat := nat_of_ascii c.

Definition LF : ascii := ascii_of_nat 10.
Definition CR : ascii := ascii_of_nat 13.
Definition NBSP : ascii := ascii_of_nat 160.
Definition dquote : ascii := ascii_of_nat 34.

(** The text of a line break. *)
Definition nl : string := String LF EmptyString.

(** [\s] and the characters removed by [String.prototype.trim]: the
    white space and line terminators of ECMAScript among the code units
    below 256, which are TAB, LF, VT, FF, CR, SPACE and NO-BREAK SPACE
    (U+00A0). *)
Definition isWhiteSpace (c : ascii) : bool :=
  let n := code c in
  ((9 <=? n) && (n <=? 13)) || (n =? 32) || (n =? 160).

(** Line terminators: [.] does not match them, [$] with flag [m]
    matches in front of them. *)
Definition isLineTerminator (c : ascii) : bool :=
  let n := code c in (n =? 10) || (n =? 13).

Definition isLower (c : ascii) : bool :=
  let n := code c in (97 <=? n) && (n <=? 122).

Definition isUpper (c : ascii) : bool :=
  let n := code c in (65 <=? n) && (n <=? 90).

Definition isDigit (c : ascii) : bool :=
  let n := code c in (48 <=? n) && (n <=? 57).

(** [\w] is [[A-Za-z0-9_]]. *)
Definition isWordChar (c : ascii) : bool :=
  isLower c || isUpper c || isDigit c || (code c =? 95).

(** The letters of U+00E0..U+00FE (all but the division sign U+00F7),
    whose upper case lies 32 below. *)
Definition isLatinLower (c : ascii) : bool :=
  let n := code c in (224 <=? n) && (n <=? 254) && negb (n =? 247).

(** The upper case of a code unit, as the canonicalisation of flag
    [i] takes it: a code unit whose upper case is not one code unit is
    left as it is (U+00DF, whose upper case is SS).  Two code units are
    left as they are though they have an upper case, U+00B5 and U+00FF:
    their upper cases U+039C and U+0178 lie outside the alphabet, where
    they are the upper case of no other code unit below 256. *)
Definition upperChar (c : ascii) : ascii :=
  if isLower c || isLatinLower c then ascii_of_nat (code c - 32) else c.

(** The code units whose upper case lies in the alphabet. *)
Definition hasUpperUnit (c : ascii) : bool :=
  let n := code c in negb ((n =? 181) || (n =? 255)).

(** The upper case of a code unit in [toUpperCase]: one code unit, or
    the two letters SS for U+00DF. *)
Definition upperUnits (c : ascii) : string :=
  if code c =? 223 then "SS" else String (upperChar c) EmptyString.

(** [String.prototype.toUpperCase], on texts of code units that
    [hasUpperUnit] holds of. *)
Fixpoint toUpperCase (s : string) : string :=
  match s with
  | EmptyString => EmptyString
  | String c s' => upperUnits c ++ toUpperCase s'
  end.

Fixpoint trimStart (s : string) : string :=
  match s with
  | EmptyString => EmptyString
  | String c s' => if isWhiteSpace c then trimStart s' else s
  end.

(** Drops the white space at the end: a character is kept when it is
    not white space or when something is kept after it. *)
Fixpoint trimEnd (s : string) : string :=
  match s with
  | EmptyString => EmptyString
  | String c s' =>
      match trimEnd s' with
      | EmptyString => if isWhiteSpace c then EmptyString
                       else String c EmptyString
      | t => String c t
      end
  end.

(** [String.prototype.trim] *)
Definition trim (s : string) : string := trimEnd (trimStart s).

(** [s.startsWith(p)] *)
Fixpoint startsWith (s p : string) {struct p} : bool :=
  match p with
  | EmptyString => true
  | String a p' =>
      match s with
      | EmptyString => false
      | String b s' => Ascii.eqb a b && startsWith s' p'
      end
  end.

(** [s.includes(p)] *)
Fixpoint includes (s p : string) : bool :=
  startsWith s p ||
  match s with
  | EmptyString => false
  | String _ s' => includes s' p
  end.

(** [s.split(sep)[0]] for a one-character separator: the text in
    front of the first separator, the whole string when there is
    none. *)
Fixpoint splitHead (sep : ascii) (s : string) : string :=
  match s with
  | EmptyString => EmptyString
  | String c s' =>
      if Ascii.eqb c sep then EmptyString else String c (splitHead sep s')
  end.

(** [xs.join(sep)] *)
Fixpoint join (sep : string) (xs : list string) : string :=
  match xs with
  | [] => EmptyString
  | [x] => x
  | x :: rest => x ++ sep ++ join sep rest
  end.

(** [s.substring(0, n)] *)
Fixpoint take (n : nat) (s : string) : string :=
  match n, s with
  | S n', String c s' => String c (take n' s')
  | _, _ => EmptyString
  end.

(** Truthiness of a string: the empty string is falsy. *)
Definition truthy (s : string) : bool :=
  match s with EmptyString => false | _ => true end.

(** The letters of U+00C0..U+00DE (all but the multiplication sign
    U+00D7), whose lower case lies 32 above. *)
Definition isLatinUpper (c : ascii) : bool :=
  let n := code c in (192 <=? n) && (n <=? 222) && negb (n =? 215).

Definition lowerChar (c : ascii) : ascii :=
  if isUpper c || isLatinUpper c then ascii_of_nat (code c + 32) else c.

(** [String.prototype.toLowerCase] *)
Fixpoint toLowerCase (s : string) : string :=
  match s with
  | EmptyString => EmptyString
  | String c s' => String (lowerChar c) (toLowerCase s')
  end.

End JS.

(* ================================================================== *)
(** * Regular expressions *)
(* ================================================================== *)

Module Regex.

(** The fragment of the ECMAScript pattern language the sources use.
    Quantifiers are applied to one-character atoms only (as in
    [\s+], [.*], [[^']*], [[\s\S]*?]). *)
Inductive regex : Type :=
| Chars (lit : string)              (* a run of literal characters *)
| Star (cls : ascii -> bool)        (* cls*   greedy *)
| Plus (cls : ascii -> bool)        (* cls+   greedy *)
| StarLazy (cls : ascii -> bool)    (* cls*?  lazy *)
| Opt (cls : ascii -> bool)         (* cls?   greedy *)
| Seq (r1 r2 : regex)
| Alt (r1 r2 : regex)
| WordBoundary                      (* \b *)
| EndAnchor.                        (* $ *)

Record flags : Type := mkFlags {
  global : bool;       (* g *)
  ignoreCase : bool;   (* i *)
  multiline : bool     (* m *)
}.

Definition noFlags := mkFlags false false false.
Definition flag_i := mkFlags false true false.
Definition flag_g := mkFlags true false false.
Definition flag_gm := mkFlags true false true.
Definition flag_gi := mkFlags true true false.

(** Character classes *)
Definition space : ascii -> bool := JS.isWhiteSpace.             (* \s *)
Definition word : ascii -> bool := JS.isWordChar.                (* \w *)
Definition dot (c : ascii) : bool := negb (JS.isLineTerminator c). (* . *)
Definition anyChar (_ : ascii) : bool := true.                   (* [\s\S] *)
Definition oneOf (set : string) (c : ascii) : bool :=            (* [set] *)
  JS.includes set (String c EmptyString).
Definition noneOf (set : string) (c : ascii) : bool :=           (* [^set] *)
  negb (oneOf set c).

(** Canonicalisation of a character under flag [i]. *)
Definition sameChar (f : flags) (a b : ascii) : bool :=
  if ignoreCase f then Ascii.eqb (JS.upperChar a) (JS.upperChar b)
  else Ascii.eqb a b.

Definition isWordOpt (o : option ascii) : bool :=
  match o with Some c => JS.isWordChar c | None => false end.

Definition next (s : string) : option ascii :=
  match s with EmptyString => None | String c _ => Some c end.

Section Matcher.
Variable f : flags.

(** A continuation receives the last character read, the rest of
    the input and the number of characters of the match so far. *)
Definition cont : Type := option ascii -> string -> nat -> option nat.

Fixpoint chars (lit : string) (k : cont)
         (prev : option ascii) (s : string) (n : nat) : option nat :=
  match lit with
  | EmptyString => k prev s n
  | String a lit' =>
      match s with
      | EmptyString => None
      | String c s' =>
          if sameChar f a c then chars lit' k (Some c) s' (S n) else None
      end
  end.

Fixpoint starGreedy (cls : ascii -> bool) (k : cont)
         (prev : option ascii) (s : string) (n : nat) : option nat :=
  match s with
  | EmptyString => k prev s n
  | String c s' =>
      if cls c then
        match starGreedy cls k (Some c) s' (S n) with
        | Some r => Some r
        | None => k prev s n
        end
      else k prev s n
  end.

Fixpoint starLazy (cls : ascii -> bool) (k : cont)
         (prev : option ascii) (s : string) (n : nat) : option nat :=
  match k prev s n with
  | Some r => Some r
  | None =>
      match s with
      | EmptyString => None
      | String c s' =>
          if cls c then starLazy cls k (Some c) s' (S n) else None
      end
  end.

(** [run r k prev s n]: match [r] at the head of [s], then [k];
    backtracks into [r] when [k] fails. *)
Fixpoint run (r : regex) (k : cont)
         (prev : option ascii) (s : string) (n : nat) : option nat :=
  match r with
  | Chars lit => chars lit k prev s n
  | Star cls => starGreedy cls k prev s n
  | Plus cls =>
      match s with
      | EmptyString => None
      | String c s' =>
          if cls c then starGreedy cls k (Some c) s' (S n) else None
      end
  | StarLazy cls => starLazy cls k prev s n
  | Opt cls =>
      match s with
      | EmptyString => k prev s n
      | String c s' =>
          if cls c then
            match k (Some c) s' (S n) with
            | Some r => Some r
            | None => k prev s n
            end
          else k prev s n
      end
  | Seq r1 r2 => run r1 (run r2 k) prev s n
  | Alt r1 r2 =>
      match run r1 k prev s n with
      | Some x => Some x
      | None => run r2 k prev s n
      end
  | WordBoundary =>
      if xorb (isWordOpt prev) (isWordOpt (next s)) then k prev s n
      else None
  | EndAnchor =>
      match s with
      | EmptyString => k prev s n
      | String c _ =>
          if multiline f && JS.isLineTerminator c then k prev s n
          else None
      end
  end.

Definition accept : cont := fun _ _ n => Some n.

(** Length of the match of [r] that starts at the head of [s], when
    there is one; [prev] is the character in front of [s]. *)
Definition matchAt (r : regex) (prev : option ascii) (s : string)
  : option nat := run r accept prev s 0.

Fixpoint searchFrom (r : regex) (prev : option ascii) (s : string)
  : bool :=
  match matchAt r prev s with
  | Some _ => true
  | None =>
      match s with
      | EmptyString => false
      | String c s' => searchFrom r (Some c) s'
      end
  end.

(** [regex.test(s)] for a regex without flag [g]. *)
Definition test (r : regex) (s : string) : bool := searchFrom r None s.

(** [s.replace(regex, repl)] for a replacement text without [$]
    patterns.  [skip] counts the characters of the current match
    still to be dropped; [active] is false once a regex without
    flag [g] has replaced its first match. *)
Fixpoint replaceFrom (r : regex) (repl : string) (prev : option ascii)
         (s : string) (skip : nat) (active : bool) : string :=
  match skip with
  | S skip' =>
      match s with
      | EmptyString => EmptyString
      | String c s' => replaceFrom r repl (Some c) s' skip' active
      end
  | O =>
      if active then
        match matchAt r prev s with
        | Some (S len) =>
            repl ++
            match s with
            | EmptyString => EmptyString
            | String c s' => replaceFrom r repl (Some c) s' len (global f)
            end
        | Some O =>
            repl ++
            match s with
            | EmptyString => EmptyString
            | String c s' =>
                String c (replaceFrom r repl (Some c) s' 0 (global f))
            end
        | None =>
            match s with
            | EmptyString => EmptyString
            | String c s' =>
                String c (replaceFrom r repl (Some c) s' 0 active)
            end
        end
      else s
  end.

Definition replace (r : regex) (repl : string) (s : string) : string :=
  replaceFrom r repl None s 0 true.

End Matcher.

(** [(a|b|...)] *)
Fixpoint anyOf (lits : list string) : regex :=
  match lits with
  | [] => Chars EmptyString
  | [l] => Chars l
  | l :: rest => Alt (Chars l) (anyOf rest)
  end.

End Regex.

(* ================================================================== *)
(** * The query validator ([src/validators/query-validator.ts]) *)
(* ================================================================== *)

Module QueryValidator.
Import Regex.

(** [interface ValidationResult]: [reason] and [queryType] are optional
    properties. *)
Record ValidationResult : Type := mkResult {
  valid : bool;
  reason : option string;
  queryType : option string
}.

(** Keywords that are blocked in READONLY mode *)
Definition BLOCKED_KEYWORDS : list string :=
  [ "INSERT"; "UPDATE"; "DELETE"; "DROP"; "ALTER"; "CREATE"; "TRUNCATE";
    "EXEC"; "EXECUTE"; "MERGE"; "GRANT"; "REVOKE"; "DENY"; "BACKUP";
    "RESTORE"; "BULK"; "OPENROWSET"; "OPENDATASOURCE"; "XP_";
    "SP_CONFIGURE"; "SP_ADDLOGIN"; "SP_DROPLOGIN"; "DBCC"; "SHUTDOWN";
    "KILL" ].

(** Keywords that are allowed to start a query in READONLY mode *)
Definition ALLOWED_START_KEYWORDS : list string :=
  [ "SELECT"; "WITH"; "SET SHOWPLAN" ].

(** [/--.*$/gm] *)
Definition lineComment : regex :=
  Seq (Chars "--") (Seq (Star dot) EndAnchor).

(** [/\/\*[\s\S]*?\*\//g] *)
Definition blockComment : regex :=
  Seq (Chars "/*") (Seq (StarLazy anyChar) (Chars "*/")).

(** Remove SQL comments from a query *)
Definition removeComments (query : string) : string :=
  let result := replace flag_gm lineComment "" query in
  replace flag_g blockComment "" result.

(** [/\s+/g] *)
Definition whiteSpaceRun : regex := Plus space.

(** Normalize a query for validation *)
Definition normalizeQuery (query : string) : string :=
  JS.toUpperCase (JS.trim (replace flag_g whiteSpaceRun " " (removeComments query))).

(** Check if query starts with an allowed keyword *)
Definition startsWithAllowed (normalizedQuery : string) : bool :=
  existsb (fun keyword => JS.startsWith normalizedQuery keyword)
          ALLOWED_START_KEYWORDS.

(** [new RegExp(`\\b${keyword}\\b`, 'i')] *)
Definition keywordRegex (keyword : string) : regex :=
  Seq WordBoundary (Seq (Chars keyword) WordBoundary).

(** Check for blocked keywords in the query: the first keyword of the
    list whose regex matches. *)
Definition findBlockedKeyword (normalizedQuery : string) : option string :=
  find (fun keyword => test flag_i (keywordRegex keyword) normalizedQuery)
       BLOCKED_KEYWORDS.

(** The bypass patterns, in the order of the source, each with its
    description. *)
Definition stackedQuery : regex :=
  (* /;\s*(INSERT|UPDATE|DELETE|DROP|ALTER|CREATE|TRUNCATE|EXEC)/i *)
  Seq (Chars ";")
      (Seq (Star space)
           (anyOf [ "INSERT"; "UPDATE"; "DELETE"; "DROP"; "ALTER"; "CREATE";
                    "TRUNCATE"; "EXEC" ])).

Definition intoTargetParen : regex :=
  (* /\bINTO\s+[#@]?\w+\s*\(/i *)
  Seq WordBoundary
      (Seq (Chars "INTO")
           (Seq (Plus space)
                (Seq (Opt (oneOf "#@"))
                     (Seq (Plus word) (Seq (Star space) (Chars "(")))))).

Definition selectInto : regex :=
  (* /\bSELECT\b.*\bINTO\s+[#@]?\w+/i *)
  Seq WordBoundary
      (Seq (Chars "SELECT")
           (Seq WordBoundary
                (Seq (Star dot)
                     (Seq WordBoundary
                          (Seq (Chars "INTO")
                               (Seq (Plus space)
                                    (Seq (Opt (oneOf "#@")) (Plus word)))))))).

Definition forUpdateDelete : regex :=
  (* /\bFOR\s+(UPDATE|DELETE)\b/i *)
  Seq WordBoundary
      (Seq (Chars "FOR")
           (Seq (Plus space)
                (Seq (anyOf [ "UPDATE"; "DELETE" ]) WordBoundary))).

Definition openQuery : regex :=
  (* /\bOPENQUERY\s*\(/i *)
  Seq WordBoundary (Seq (Chars "OPENQUERY") (Seq (Star space) (Chars "("))).

Definition bypassPatterns : list (regex * string) :=
  [ (stackedQuery, "Stacked query with write operation");
    (intoTargetParen, "SELECT INTO creates tables");
    (selectInto, "SELECT INTO creates tables");
    (forUpdateDelete, "FOR UPDATE/DELETE is not allowed");
    (openQuery, "OPENQUERY is not allowed") ].

(** Check for bypass patterns that could be used to execute dangerous
    operations: the description of the first pattern that matches. *)
Definition findBypassPattern (query : string) : option string :=
  option_map snd
    (find (fun pd => test flag_i (fst pd) query) bypassPatterns).

Definition quoted (s : string) : string :=
  String JS.dquote (s ++ String JS.dquote EmptyString).

(** Validate a query for READONLY mode.  The first three checks read
    the normalized text; the bypass patterns are tested on [query], the
    text as it was passed. *)
Definition validateQuery (query : string) : ValidationResult :=
  let normalized := normalizeQuery query in
  if negb (JS.truthy normalized) then
    mkResult false (Some "Query is empty") (Some "EMPTY")
  else if negb (startsWithAllowed normalized) then
    let firstWord := JS.splitHead " " normalized in
    mkResult false
      (Some ("Query must start with SELECT or WITH (CTE). Found: " ++ firstWord))
      (Some firstWord)
  else
    match findBlockedKeyword normalized with
    | Some blockedKeyword =>
        mkResult false
          (Some ("Keyword " ++ quoted blockedKeyword
                   ++ " is not allowed in READONLY mode"))
          (Some blockedKeyword)
    | None =>
        match findBypassPattern query with
        | Some bypassPattern =>
            mkResult false
              (Some ("Query contains blocked pattern: " ++ bypassPattern))
              (Some "BLOCKED_PATTERN")
        | None => mkResult true None (Some "SELECT")
        end
    end.

(** Get the type of SQL operation from a query *)
Definition getQueryType (query : string) : string :=
  let normalized := normalizeQuery query in
  let firstWord := JS.splitHead " " normalized in
  if JS.startsWith normalized "WITH" then "CTE"
  else if JS.startsWith normalized "SET SHOWPLAN" then "SHOWPLAN"
  else firstWord.

(** Check if a query is a write operation *)
Definition isWriteOperation (query : string) : bool :=
  let normalized := normalizeQuery query in
  let writeKeywords := [ "INSERT"; "UPDATE"; "DELETE"; "MERGE" ] in
  existsb (fun keyword => JS.startsWith normalized keyword) writeKeywords.

End QueryValidator.

(* ================================================================== *)
(** * Errors ([src/utils/errors.ts]) and [formatError] *)
(* ================================================================== *)

Module Errors.
Import Regex.

(** Numbers are printed in decimal, as template literals do for
    integers. *)
Definition showZ (z : Z) : string :=
  DecimalString.NilZero.string_of_int (Z.to_int z).

(** The subclasses of [McpError], each with the arguments of its
    constructor. *)
Inductive McpError : Type :=
| BaseMcpError (message code : string)
| QueryValidationError (message : string) (queryType : option string)
| ReadOnlyViolationError (blockedKeyword : string)
| ConnectionError (message : string)
| TimeoutError (timeoutMs : Z)
| MissingParameterError (parameterName : string)
| InvalidOperationError (message : string).

(** The [message] each constructor passes to [super]. *)
Definition mcpMessage (e : McpError) : string :=
  match e with
  | BaseMcpError message _ => message
  | QueryValidationError message _ => message
  | ReadOnlyViolationError blockedKeyword =>
      "Operation blocked in READONLY mode: "
        ++ QueryValidator.quoted blockedKeyword
        ++ " is not allowed. " ++ "Only SELECT queries are permitted."
  | ConnectionError message => message
  | TimeoutError timeoutMs =>
      "Query timed out after " ++ showZ timeoutMs
        ++ "ms. Consider optimizing your query or increasing the timeout."
  | MissingParameterError parameterName =>
      "Required parameter " ++ QueryValidator.quoted parameterName
        ++ " is missing"
  | InvalidOperationError message => message
  end.

Definition mcpCode (e : McpError) : string :=
  match e with
  | BaseMcpError _ code => code
  | QueryValidationError _ _ => "QUERY_VALIDATION_ERROR"
  | ReadOnlyViolationError _ => "READONLY_VIOLATION"
  | ConnectionError _ => "CONNECTION_ERROR"
  | TimeoutError _ => "TIMEOUT_ERROR"
  | MissingParameterError _ => "MISSING_PARAMETER"
  | InvalidOperationError _ => "INVALID_OPERATION"
  end.

(** What a [catch] clause can receive ([error: unknown]). *)
Inductive thrown : Type :=
| Mcp (e : McpError)              (* error instanceof McpError *)
| PlainError (message : string)   (* error instanceof Error, no McpError *)
| NotAnError.                     (* any other value *)


(** [/Login failed for user '[^']*'/] *)
Definition loginFailed : regex :=
  Seq (Chars "Login failed for user '") (Seq (Star (noneOf "'")) (Chars "'")).

(** [/password[^,]*/gi] *)
Definition passwordFragment : regex :=
  Seq (Chars "password") (Star (noneOf ",")).

(** Remove sensitive information from SQL Server errors *)
Definition sanitize (message : string) : string :=
  replace flag_gi passwordFragment "password=***"
    (replace noFlags loginFailed "Login failed for user '***'" message).

(** Get a user-friendly error message from an error *)
Definition getErrorMessage (error : thrown) : string :=
  match error with
  | Mcp e => mcpMessage e
  | PlainError message => sanitize message
  | NotAnError => "An unknown error occurred"
  end.

(** [interface ToolResponse], with its single text content. *)
Record ToolResponse : Type := mkToolResponse {
  text : string;
  isError : bool
}.

(** Format an error tool response ([src/utils/formatters.ts]) *)
Definition formatError (error : thrown) : ToolResponse :=
  let message := getErrorMessage error in
  mkToolResponse ("Error: " ++ message) true.

End Errors.

(* ================================================================== *)
(** * The execution pipeline ([src/db/execute.ts]) *)
(* ================================================================== *)

Module Execute.
Import QueryValidator Errors.

Local Open Scope Z_scope.

(** ** Values *)

(** An ECMAScript number: a finite double is [m * 2^e]. *)
Inductive number : Type :=
| Finite (m e : Z)
| NaN
| PosInfinity
| NegInfinity.

Definition ofZ (z : Z) : number := Finite z 0.

(** [Number.isInteger] *)
Definition isInteger (x : number) : bool :=
  match x with
  | Finite m e => (0 <=? e) || (m mod 2 ^ (- e) =? 0)
  | _ => false
  end.

(** A value as it is found at run time.  [SqlParamValue] is the union
    of the first four; [unknown] values can be anything. *)
Inductive value : Type :=
| VNull
| VString (s : string)
| VNumber (x : number)
| VBoolean (b : bool)
| VUndefined
| VObject.        (* any value that is not a primitive of the union *)

Definition inSqlParamValue (v : value) : bool :=
  match v with
  | VNull | VString _ | VNumber _ | VBoolean _ => true
  | VUndefined | VObject => false
  end.

(** The type factories of the driver that the binder uses. *)
Inductive SqlType : Type := NVarChar | BigInt | Float | Bit.

(** SQL parameter types mapping *)
Definition getSqlType (v : value) : SqlType :=
  match v with
  | VNull => NVarChar
  | VString _ => NVarChar
  | VNumber x => if isInteger x then BigInt else Float
  | VBoolean _ => Bit
  | _ => NVarChar
  end.

(** [Record<string, T>]: the properties in enumeration order. *)
Definition record (T : Type) : Type := list (string * T).

Definition keys {T : Type} (r : record T) : list string := map fst r.

(** ** [Array.prototype.slice(0, end)] *)

Inductive extInt : Type := Int (z : Z) | PlusInf | MinusInf.

(** [ToIntegerOrInfinity] *)
Definition toIntegerOrInfinity (x : number) : extInt :=
  match x with
  | NaN => Int 0
  | PosInfinity => PlusInf
  | NegInfinity => MinusInf
  | Finite m e => if 0 <=? e then Int (m * 2 ^ e) else Int (Z.quot m (2 ^ (- e)))
  end.

Definition slice0 {A : Type} (xs : list A) (finish : number) : list A :=
  let len := Z.of_nat (List.length xs) in
  let final :=
    match toIntegerOrInfinity finish with
    | MinusInf => 0
    | Int relativeEnd =>
        if relativeEnd <? 0 then Z.max (len + relativeEnd) 0
        else Z.min relativeEnd len
    | PlusInf => len
    end in
  firstn (Z.to_nat final) xs.

(** ** The driver and the world *)

Definition row : Type := record value.

(** [result.recordset]: the rows and, when the driver gives it, the
    [columns] descriptor with the [type?.name] of each column. *)
Record recordsetT : Type := mkRecordset {
  rsRows : list row;
  columns : option (record (option string))
}.

Record driverResult : Type := mkDriverResult {
  recordset : option recordsetT;
  rowsAffected : list Z
}.

(** Calls that leave the module, in the order they are made. *)
Inductive event : Type :=
| CallValidateQuery (query : string)
| CallGetPool
| CallRequest
| CallInput (name : string) (type : SqlType) (v : value)
| CallQuery (query : string)
| CallLogger (level message : string) (meta : record value).

(** The database driver: whether [getPool] gives a pool (or the message
    of the connection failure), and what [request.query] answers to a
    statement with its bound inputs.  The clock is read before
    [getPool] is called and after the answer or the failure has come,
    and nowhere in between: [answer] comes with the time that has
    passed since [getPool] was called (the connection, when the pool
    was not at hand, and the request), and [connectTime] is the time
    that has passed when a connection attempt fails. *)
Record driver : Type := mkDriverWith {
  connect : option string;
  answer : string -> list (string * SqlType * value)
           -> Z * (thrown + driverResult);
  connectTime : Z
}.

(** A driver whose connection attempt, when it fails, fails at once. *)
Definition mkDriver (connect : option string)
           (answer : string -> list (string * SqlType * value)
                     -> Z * (thrown + driverResult)) : driver :=
  mkDriverWith connect answer 0.

Record world : Type := mkWorld {
  clock : Z;                (* what [Date.now()] returns *)
  trace : list event        (* latest call first *)
}.

(** Computations that read the clock, make calls and may throw. *)
Definition M (A : Type) : Type := world -> world * (thrown + A).

Definition ret {A : Type} (a : A) : M A := fun w => (w, inr a).

Definition bind {A B : Type} (c : M A) (k : A -> M B) : M B :=
  fun w =>
    match c w with
    | (w', inr a) => k a w'
    | (w', inl e) => (w', inl e)
    end.

Definition throw {A : Type} (e : thrown) : M A := fun w => (w, inl e).

Definition tryCatch {A : Type} (c : M A) (handler : thrown -> M A) : M A :=
  fun w =>
    match c w with
    | (w', inr a) => (w', inr a)
    | (w', inl e) => handler e w'
    end.

Definition emit (e : event) : M unit :=
  fun w => (mkWorld (clock w) (e :: trace w), inr tt).

Definition dateNow : M Z := fun w => (w, inr (clock w)).

Definition elapse (dt : Z) : M unit :=
  fun w => (mkWorld (clock w + dt) (trace w), inr tt).

Notation "x <- c ;; k" := (bind c (fun x => k))
  (at level 61, c at next level, right associativity).
Notation "c ;;; k" := (bind c (fun _ => k))
  (at level 61, right associativity).

(** [getPool()] of [src/db/connection.ts], as seen by its callers: the
    pool (the time this took is counted in the time of [answer]), or,
    after the time the failed [sql.connect] took, a [ConnectionError]
    that wraps the driver's message. *)
Definition getPool (d : driver) : M unit :=
  emit CallGetPool ;;;
  match connect d with
  | None => ret tt
  | Some message =>
      elapse (connectTime d) ;;;
      throw (Mcp (ConnectionError ("Failed to connect to SQL Server: " ++ message)))
  end.

(** [for (const [name, value] of Object.entries(params))
       request.input(name, getSqlType(value), value)] *)
Fixpoint addParameters (params : record value)
  : M (list (string * SqlType * value)) :=
  match params with
  | [] => ret []
  | (name, v) :: rest =>
      let sqlType := getSqlType v in
      emit (CallInput name sqlType v) ;;;
      inputs <- addParameters rest ;;
      ret ((name, sqlType, v) :: inputs)
  end.

(** [await request.query(query)] *)
Definition requestQuery (d : driver) (query : string)
           (inputs : list (string * SqlType * value)) : M driverResult :=
  emit (CallQuery query) ;;;
  let '(dt, outcome) := answer d query inputs in
  elapse dt ;;;
  match outcome with
  | inr result => ret result
  | inl error => throw error
  end.

Record FieldInfo : Type := mkField { fieldName : string; fieldType : string }.

(** [interface QueryResult] *)
Record QueryResult : Type := mkQueryResult {
  rows : list row;
  rowCount : Z;
  fields : list FieldInfo;
  duration : Z
}.

(** [a || b] on an optional string. *)
Definition orElse (a : option string) (b : string) : string :=
  match a with
  | Some s => if JS.truthy s then s else b
  | None => b
  end.

Definition num (z : Z) : value := VNumber (ofZ z).

(** Execute a SQL query with parameters.  [READONLY] is
    [config.READONLY]. *)
Definition executeQuery (READONLY : bool) (d : driver) (query : string)
           (params : record value) (maxRows : number) : M QueryResult :=
  startTime <- dateNow ;;
  (if READONLY then
     emit (CallValidateQuery query) ;;;
     let validation := validateQuery query in
     if negb (valid validation) then
       throw (Mcp (QueryValidationError
                     (orElse (reason validation) "Query validation failed")
                     None))
     else ret tt
   else ret tt) ;;;
  tryCatch
    (getPool d ;;;
     emit CallRequest ;;;
     inputs <- addParameters params ;;
     result <- requestQuery d query inputs ;;
     finish <- dateNow ;;
     let duration := finish - startTime in
     let rows :=
       match recordset result with Some rs => rsRows rs | None => [] end in
     let totalRows := Z.of_nat (List.length rows) in
     let limitedRows := slice0 rows maxRows in
     emit (CallLogger "debug" "Query executed"
             [ ("rowsReturned", num (Z.of_nat (List.length limitedRows)));
               ("totalRows", num totalRows);
               ("duration", num duration);
               ("readonly", VBoolean READONLY) ]) ;;;
     let fields :=
       match recordset result with
       | Some (mkRecordset _ (Some cols)) =>
           map (fun nc => mkField (fst nc) (orElse (snd nc) "unknown")) cols
       | _ => []
       end in
     ret (mkQueryResult limitedRows totalRows fields duration))
    (fun error =>
       finish <- dateNow ;;
       let duration := finish - startTime in
       let message := getErrorMessage error in
       emit (CallLogger "error" "Query execution failed"
               [ ("error", VString message);
                 ("duration", num duration);
                 ("query", VString (JS.take 200 query)) ]) ;;;
       if JS.includes message "timeout" || JS.includes message "Timeout"
       then throw (Mcp (TimeoutError duration))
       else throw error).

Record WriteResult : Type := mkWriteResult {
  affectedRows : Z;
  writeDuration : Z
}.

(** Execute a write operation (INSERT, UPDATE, DELETE).  Only allowed
    when READONLY is false. *)
Definition executeWrite (READONLY : bool) (d : driver) (query : string)
           (params : record value) : M WriteResult :=
  if READONLY then
    throw (Mcp (ReadOnlyViolationError
                  "Write operations are not allowed in READONLY mode"))
  else
    startTime <- dateNow ;;
    tryCatch
      (getPool d ;;;
       emit CallRequest ;;;
       inputs <- addParameters params ;;
       result <- requestQuery d query inputs ;;
       finish <- dateNow ;;
       let duration := finish - startTime in
       let affected := hd 0 (rowsAffected result) in
       emit (CallLogger "info" "Write operation executed"
               [ ("affectedRows", num affected); ("duration", num duration) ]) ;;;
       ret (mkWriteResult affected duration))
      (fun error =>
         finish <- dateNow ;;
         let duration := finish - startTime in
         let message := getErrorMessage error in
         emit (CallLogger "error" "Write operation failed"
                 [ ("error", VString message);
                   ("duration", num duration);
                   ("query", VString (JS.take 200 query)) ]) ;;;
         throw error).

(** ** Statement builders *)

Definition nl : string := JS.nl.

(** Build a parameterized INSERT query *)
Definition buildInsertQuery (schema table : string) (data : record value)
  : string * record value :=
  let columns := keys data in
  let paramNames := map (fun col => "@" ++ col)%string columns in
  let query :=
    (nl ++ "    INSERT INTO [" ++ schema ++ "].[" ++ table ++ "] (["
        ++ JS.join "], [" columns ++ "])" ++ nl
        ++ "    VALUES (" ++ JS.join ", " paramNames ++ ");" ++ nl
        ++ "    SELECT SCOPE_IDENTITY() AS insertedId;" ++ nl
        ++ "  ")%string in
  (query, data).

(** ** Properties of objects *)

(** [r[key]] *)
Fixpoint getProperty {T : Type} (r : record T) (key : string) : option T :=
  match r with
  | [] => None
  | (k, v) :: rest => if String.eqb k key then Some v else getProperty rest key
  end.

(** [r[key] = v]: the value of an existing property is replaced where
    the property stands, a new property is added at the end. *)
Fixpoint setProperty {T : Type} (r : record T) (key : string) (v : T)
  : record T :=
  match r with
  | [] => [(key, v)]
  | (k, v') :: rest =>
      if String.eqb k key then (k, v) :: rest
      else (k, v') :: setProperty rest key v
  end.

Fixpoint decimalValue (acc : N) (s : string) : option N :=
  match s with
  | EmptyString => Some acc
  | String c s' =>
      if JS.isDigit c
      then decimalValue (acc * 10 + N.of_nat (JS.code c - 48)) s'
      else None
  end.

(** The array index a property key stands for: a canonical decimal
    numeral (no sign, no leading zero) of at most [2^32 - 2]. *)
Definition arrayIndex (key : string) : option N :=
  match key with
  | EmptyString => None
  | String c rest =>
      if Ascii.eqb c "0" && JS.truthy rest then None
      else
        match decimalValue 0 key with
        | Some n => if (n <=? 4294967294)%N then Some n else None
        | None => None
        end
  end.

Fixpoint insertByIndex {T : Type} (n : N) (kv : string * T)
         (l : list (N * (string * T))) : list (N * (string * T)) :=
  match l with
  | [] => [(n, kv)]
  | (m, e) :: rest =>
      if (n <=? m)%N then (n, kv) :: l else (m, e) :: insertByIndex n kv rest
  end.

(** The properties whose key is an array index, by ascending index. *)
Fixpoint indexedProperties {T : Type} (created : record T)
  : list (N * (string * T)) :=
  match created with
  | [] => []
  | kv :: rest =>
      match arrayIndex (fst kv) with
      | Some n => insertByIndex n kv (indexedProperties rest)
      | None => indexedProperties rest
      end
  end.

(** The order in which the properties of an object are enumerated,
    given the order in which they were created: array indices first,
    ascending, then the other keys as created. *)
Definition ownProperties {T : Type} (created : record T) : record T :=
  (map snd (indexedProperties created) ++
   filter (fun kv => match arrayIndex (fst kv) with
                     | Some _ => false | None => true end) created)%list.

(** [{ ...a, ...b }] *)
Definition spread {T : Type} (a b : record T) : record T :=
  ownProperties
    (fold_left (fun target kv => setProperty target (fst kv) (snd kv))
               (a ++ b)%list []).

(** Execute a query that returns a single scalar value *)
Definition executeScalar (READONLY : bool) (d : driver) (query : string)
           (params : record value) : M value :=
  result <- executeQuery READONLY d query params (ofZ 1) ;;
  match rows result with
  | [] => ret VNull
  | firstRow :: _ =>
      match keys firstRow with
      | [] => ret VNull
      | key :: _ =>
          ret (match getProperty firstRow key with
               | Some v => v
               | None => VUndefined
               end)
      end
  end.

(** Build a parameterized UPDATE query *)
Definition buildUpdateQuery (schema table : string) (data : record value)
           (whereClause : string) (whereParams : record value)
  : string * record value :=
  let setClause :=
    JS.join ", " (map (fun col => "[" ++ col ++ "] = @" ++ col)%string
                      (keys data)) in
  let query :=
    (nl ++ "    UPDATE [" ++ schema ++ "].[" ++ table ++ "]" ++ nl
        ++ "    SET " ++ setClause ++ nl
        ++ "    WHERE " ++ whereClause ++ ";" ++ nl
        ++ "    SELECT @@ROWCOUNT AS affectedRows;" ++ nl
        ++ "  ")%string in
  (query, spread data whereParams).

(** Build a parameterized DELETE query *)
Definition buildDeleteQuery (schema table : string) (whereClause : string)
           (whereParams : record value) : string * record value :=
  let query :=
    (nl ++ "    DELETE FROM [" ++ schema ++ "].[" ++ table ++ "]" ++ nl
        ++ "    WHERE " ++ whereClause ++ ";" ++ nl
        ++ "    SELECT @@ROWCOUNT AS affectedRows;" ++ nl
        ++ "  ")%string in
  (query, whereParams).

End Execute.

(* ================================================================== *)
(** * Formatters ([src/utils/formatters.ts]) *)
(* ================================================================== *)

Module Formatters.
Import Errors.

Local Open Scope Z_scope.

(** Format a successful tool response.  [stringify] stands for
    [JSON.stringify(data, null, 2)]; a response without [isError] has
    [isError = false] here. *)
Definition formatSuccess {A : Type} (stringify : A -> string) (data : A)
  : ToolResponse :=
  mkToolResponse (stringify data) false.

(** Truncate a string to a maximum length, for an integral
    [maxLength].  [substring] takes a negative end as 0. *)
Definition truncate (str : string) (maxLength : Z) : string :=
  if Z.of_nat (String.length str) <=? maxLength then str
  else (JS.take (Z.to_nat (maxLength - 3)) str ++ "...")%string.

End Formatters.

(* ================================================================== *)
(** * The logger ([src/utils/logger.ts]) *)
(* ================================================================== *)

Module Logger.
Import Execute.

(** A value of type [unknown]: the primitives, arrays, and any other
    object through its enumerable own properties. *)
#[local] Unset Elimination Schemes.
Inductive unknown : Type :=
| UNull
| UUndefined
| UBoolean (b : bool)
| UNumber (x : number)
| UString (s : string)
| UFunction                             (* typeof is not 'object' *)
| UArray (items : list unknown)
| UObject (fields : list (string * unknown)).
#[local] Set Elimination Schemes.

(** Keys that should be redacted from logs *)
Definition SENSITIVE_KEYS : list string :=
  [ "password"; "secret"; "token"; "key"; "credential"; "auth"; "apikey";
    "api_key" ].

(** [SENSITIVE_KEYS.some((sk) => lowerKey.includes(sk))] *)
Definition isSensitive (key : string) : bool :=
  let lowerKey := JS.toLowerCase key in
  existsb (fun sk => JS.includes lowerKey sk) SENSITIVE_KEYS.

Definition REDACTED : unknown := UString "***REDACTED***".

(** [sanitized[key] = v] on the object literal [sanitized]: the
    property is created, except for the key [__proto__], where the
    assignment goes to the setter of [Object.prototype] and creates no
    property (the prototype it may set is not enumerated by
    [Object.entries] nor printed by [JSON.stringify]). *)
Definition assign (key : string) (v : unknown) : list (string * unknown) :=
  if String.eqb key "__proto__" then [] else [(key, v)].

(** One turn of the loop of [sanitizeData], with [recur] for the
    recursive call. *)
Definition sanitizeEntry (recur : unknown -> unknown) (kv : string * unknown)
  : list (string * unknown) :=
  let '(key, value) := kv in
  if isSensitive key then assign key REDACTED
  else assign key (recur value).

(** Sanitize data by removing sensitive information.  An object is
    given by its entries in the order of [Object.entries];
    [sanitizeValue] is what is stored for a property that is not
    sensitive. *)
Fixpoint sanitizeValue (v : unknown) : unknown :=
  match v with
  | UObject fields => UObject (flat_map (sanitizeEntry sanitizeValue) fields)
  | _ => v
  end.

Definition sanitizeData (data : list (string * unknown))
  : list (string * unknown) :=
  flat_map (sanitizeEntry sanitizeValue) data.

End Logger.

(* ================================================================== *)
(** * The tools that run statements ([src/tools/sql-*.ts]) *)
(* ================================================================== *)

Module Tools.
Import QueryValidator Errors Execute Formatters Logger.

Local Open Scope Z_scope.

(** [z > x] for a number [x]. *)
Definition greaterThan (z : Z) (x : number) : bool :=
  match x with
  | Finite m e => if 0 <=? e then m * 2 ^ e <? z else m <? z * 2 ^ (- e)
  | NaN => false
  | PosInfinity => false
  | NegInfinity => true
  end.

(** The object [sqlExecute] passes to [formatSuccess]. *)
Record ExecutePayload : Type := mkExecutePayload {
  payloadRows : list row;
  payloadRowCount : Z;
  payloadFields : list FieldInfo;
  payloadDuration : string;
  truncated : bool
}.

(** The object the write tools pass to [formatSuccess]. *)
Record WritePayload : Type := mkWritePayload {
  success : bool;
  payloadTable : string;
  payloadAffectedRows : Z;
  writePayloadDuration : string
}.

Section WithLibraries.
(** [config.READONLY] and the driver. *)
Variable READONLY : bool.
Variable d : driver.
(** [JSON.stringify(data, null, 2)] on the two payloads. *)
Variable stringifyExecute : ExecutePayload -> string.
Variable stringifyWrite : WritePayload -> string.
(** The [parse] methods of the zod schemas: the parsed arguments, or
    the error they throw. *)
Variable parseExecute : unknown -> thrown + (string * record value * number).
Variable parseInsert : unknown -> thrown + (string * string * record value).
Variable parseUpdate :
  unknown -> thrown + (string * string * record value * string * record value).
Variable parseDelete :
  unknown -> thrown + (string * string * string * record value).

Definition parsed {A : Type} (r : thrown + A) : M A :=
  match r with
  | inr a => ret a
  | inl error => throw error
  end.

(** Tool: sql_execute *)
Definition sqlExecute (args : unknown) : M ToolResponse :=
  tryCatch
    (p <- parsed (parseExecute args) ;;
     let '(query, params, maxRows) := p in
     result <- executeQuery READONLY d query params maxRows ;;
     ret (formatSuccess stringifyExecute
            (mkExecutePayload (rows result) (rowCount result) (fields result)
               (showZ (duration result) ++ "ms")
               (greaterThan (rowCount result) maxRows))))
    (fun error => ret (formatError error)).

Definition writeSucceeded (schema table : string) (result : WriteResult)
  : ToolResponse :=
  formatSuccess stringifyWrite
    (mkWritePayload true (schema ++ "." ++ table) (affectedRows result)
       (showZ (writeDuration result) ++ "ms")).

(** Tool: sql_insert *)
Definition sqlInsert (args : unknown) : M ToolResponse :=
  tryCatch
    ((if READONLY then
        throw (Mcp (ReadOnlyViolationError
          "INSERT operations are not allowed in READONLY mode. Set READONLY=false to enable write operations."))
      else ret tt) ;;;
     p <- parsed (parseInsert args) ;;
     let '(table, schema, data) := p in
     if (List.length (keys data) =? 0)%nat then
       ret (formatError (PlainError "Data object cannot be empty"))
     else
       let '(query, params) := buildInsertQuery schema table data in
       result <- executeWrite READONLY d query params ;;
       ret (writeSucceeded schema table result))
    (fun error => ret (formatError error)).

(** Tool: sql_update *)
Definition sqlUpdate (args : unknown) : M ToolResponse :=
  tryCatch
    ((if READONLY then
        throw (Mcp (ReadOnlyViolationError
          "UPDATE operations are not allowed in READONLY mode. Set READONLY=false to enable write operations."))
      else ret tt) ;;;
     p <- parsed (parseUpdate args) ;;
     let '(table, schema, data, whereClause, params) := p in
     if (List.length (keys data) =? 0)%nat then
       ret (formatError (PlainError "Data object cannot be empty"))
     else
       let '(query, allParams) :=
         buildUpdateQuery schema table data whereClause params in
       result <- executeWrite READONLY d query allParams ;;
       ret (writeSucceeded schema table result))
    (fun error => ret (formatError error)).

(** Tool: sql_delete *)
Definition sqlDelete (args : unknown) : M ToolResponse :=
  tryCatch
    ((if READONLY then
        throw (Mcp (ReadOnlyViolationError
          "DELETE operations are not allowed in READONLY mode. Set READONLY=false to enable write operations."))
      else ret tt) ;;;
     p <- parsed (parseDelete args) ;;
     let '(table, schema, whereClause, params) := p in
     let '(query, allParams) :=
       buildDeleteQuery schema table whereClause params in
     result <- executeWrite READONLY d query allParams ;;
     ret (writeSucceeded schema table result))
    (fun error => ret (formatError error)).

End WithLibraries.

End Tools.

(* ================================================================== *)
(** * Notions used in the statements *)
(* ================================================================== *)

Module Notions.
Import Regex QueryValidator Errors Execute.

Definition nl : string := JS.nl.

(** The character in front of the position reached after reading [s]. *)
Fixpoint lastChar (prev : option ascii) (s : string) : option ascii :=
  match s with
  | EmptyString => prev
  | String c s' => lastChar (Some c) s'
  end.

(** [t] is [lit] up to the canonicalisation of flag [i]. *)
Fixpoint sameText (f : flags) (lit t : string) : bool :=
  match lit, t with
  | EmptyString, EmptyString => true
  | String a lit', String c t' => sameChar f a c && sameText f lit' t'
  | _, _ => false
  end.

Fixpoint allChars (P : ascii -> bool) (s : string) : bool :=
  match s with
  | EmptyString => true
  | String a s' => P a && allChars P s'
  end.

(** [c] occurs in [s]. *)
Fixpoint charIn (c : ascii) (s : string) : bool :=
  match s with
  | EmptyString => false
  | String a s' => Ascii.eqb a c || charIn c s'
  end.

(** Position of the first [q] in [s]. *)
Fixpoint indexOf (q : ascii) (s : string) : option nat :=
  match s with
  | EmptyString => None
  | String c s' => if Ascii.eqb c q then Some 0 else option_map S (indexOf q s')
  end.



(** One of the checks that read the normalized text (the empty check,
    the leading-keyword check, the blocked-keyword scan) rejects the
    query. *)
Definition decidedByText (query : string) : bool :=
  let normalized := normalizeQuery query in
  negb (JS.truthy normalized)
  || negb (startsWithAllowed normalized)
  || match findBlockedKeyword normalized with Some _ => true | None => false end.







Local Open Scope Z_scope.

(** The inputs [addParameters] attaches to the request. *)
Definition inputsOf (params : record value) : list (string * SqlType * value) :=
  map (fun nv => (fst nv, getSqlType (snd nv), snd nv)) params.

Definition inputCalls (params : record value) : list event :=
  map (fun nv => CallInput (fst nv) (getSqlType (snd nv)) (snd nv)) params.

(** The rows of a driver response: [result.recordset || []]. *)
Definition rowsOf (result : driverResult) : list row :=
  match recordset result with Some rs => rsRows rs | None => [] end.

(** The calls made up to and including [request.query]. *)
Definition callsBeforeAnswer (READONLY : bool) (query : string)
           (params : record value) (w : world) : list event :=
  CallQuery query :: rev (inputCalls params) ++ CallRequest :: CallGetPool ::
  (if READONLY then CallValidateQuery query :: trace w else trace w).

(** The driver of the spec's scenario: ten rows for every statement. *)
Definition tenRows : driver :=
  mkDriver None
    (fun _ _ =>
       (5, inr (mkDriverResult
                  (Some (mkRecordset
                           (map (fun i => [("n", num i)])
                                [1; 2; 3; 4; 5; 6; 7; 8; 9; 10])
                           None))
                  []))).


(** A driver that gets no pool, for the same reason. *)
Definition noPool : driver :=
  mkDriver (Some "Login failed for user 'sa'")
           (fun _ _ => (0, inr (mkDriverResult None []))).

(** A driver whose connection attempt runs into a timeout after
    fifteen seconds. *)
Definition unreachable : driver :=
  mkDriverWith (Some "Connection timeout")
               (fun _ _ => (0, inr (mkDriverResult None []))) 15000.

(** The characters of the fixed text of the INSERT template. *)
Definition templateChars : string :=
  ("INSERT INTO [].[] ([], []) VALUES (@, @); "
   ++ "SELECT SCOPE_IDENTITY() AS insertedId;" ++ nl)%string.

End Notions.

(* ================================================================== *)
(** * Further notions *)
(* ================================================================== *)

Module Shapes.
Import Regex QueryValidator Errors Execute Logger.

(** White space in [s] is made of single spaces; [afterSpace] tells
    whether a space stands in front of [s].  The text may end with a
    space. *)
Fixpoint collapsedFrom (afterSpace : bool) (s : string) : bool :=
  match s with
  | EmptyString => true
  | String c s' =>
      if JS.isWhiteSpace c
      then Ascii.eqb c " " && negb afterSpace && collapsedFrom true s'
      else collapsedFrom false s'
  end.

(** The same, for a text that does not end with a space either. *)
Fixpoint spacedFrom (afterSpace : bool) (s : string) : bool :=
  match s with
  | EmptyString => negb afterSpace
  | String c s' =>
      if JS.isWhiteSpace c
      then Ascii.eqb c " " && negb afterSpace && spacedFrom true s'
      else spacedFrom false s'
  end.

(** A normalized text: no lower-case letter, and words separated by
    single spaces, with no white space in front or at the end. *)
Definition isNormalized (n : string) : bool :=
  match n with
  | EmptyString => true
  | _ => spacedFrom true n
  end && Notions.allChars (fun c => negb (JS.isLower c)) n.

(** The verdict for an empty query. *)
Definition emptyVerdict : ValidationResult :=
  mkResult false (Some "Query is empty") (Some "EMPTY").

(** The verdict for a query that starts with another word. *)
Definition leadingKeywordVerdict (firstWord : string) : ValidationResult :=
  mkResult false
    (Some ("Query must start with SELECT or WITH (CTE). Found: " ++ firstWord))
    (Some firstWord).

(** The keywords of the stacked-statement pattern. *)
Definition stackedKeywords : list string :=
  [ "INSERT"; "UPDATE"; "DELETE"; "DROP"; "ALTER"; "CREATE"; "TRUNCATE";
    "EXEC" ].

(** [field] is a property of [data] or of an object nested in it
    through properties only (not through arrays). *)
Inductive FieldAt : list (string * unknown) -> string -> unknown -> Prop :=
| FieldHere (data : list (string * unknown)) (key : string) (v : unknown) :
    In (key, v) data -> FieldAt data key v
| FieldInside (data inner : list (string * unknown)) (outer key : string)
              (v : unknown) :
    In (outer, UObject inner) data -> FieldAt inner key v ->
    FieldAt data key v.

(** A character that is no white space and opens no comment. *)
Definition plainChar (c : ascii) : bool :=
  negb (JS.isWhiteSpace c) && negb (Ascii.eqb "-" c) && negb (Ascii.eqb "/" c).

(** A character that opens no comment. *)
Definition notOpener (c : ascii) : bool :=
  negb (Ascii.eqb "-" c) && negb (Ascii.eqb "/" c).

(** Entries tagged with the array index of their key. *)
Definition tagged {T : Type} (l : list (N * (string * T))) : Prop :=
  Forall (fun e => arrayIndex (fst (snd e)) = Some (fst e)) l.

(** The first field of the first row, [null] when there is none. *)
Definition firstValue (rows : list row) : value :=
  match rows with
  | [] => VNull
  | [] :: _ => VNull
  | ((_, v) :: _) :: _ => v
  end.

(** The text a write tool answers with in read-only mode. *)
Definition refusalText (operation : string) : string :=
  ("Error: Operation blocked in READONLY mode: "
     ++ quoted (operation ++ " operations are not allowed in READONLY mode. Set READONLY=false to enable write operations.")
     ++ " is not allowed. Only SELECT queries are permitted.")%string.

(** A parser that refuses every argument, and one that accepts every
    argument as the same request. *)
Definition refuseAll {A : Type} (error : thrown) : unknown -> thrown + A :=
  fun _ => inl error.

Definition acceptAs {A : Type} (request : A) : unknown -> thrown + A :=
  fun _ => inr request.

(** A stand-in for [JSON.stringify] on the payload of [sqlExecute],
    that prints the number of rows and the flag. *)
Definition printExecute (p : Tools.ExecutePayload) : string :=
  (showZ (Z.of_nat (List.length (Tools.payloadRows p))) ++ " of "
     ++ showZ (Tools.payloadRowCount p)
     ++ (if Tools.truncated p then " (truncated)" else ""))%string.

(** A stand-in for [JSON.stringify] on the payload of the write tools. *)
Definition printWrite (p : Tools.WritePayload) : string :=
  (Tools.payloadTable p ++ ": " ++ showZ (Tools.payloadAffectedRows p))%string.

End Shapes.

(* ================================================================== *)
(** * Properties of the matcher *)
(* ================================================================== *)

Module RegexFacts.
Import Regex Notions.

Section Engine.
Variable f : flags.

(** Literal characters read the text they are the same as. *)
Lemma chars_sameText (lit t : string) (k : cont) (prev : option ascii)
      (s : string) (n : nat) :
  sameText f lit t = true ->
  chars f lit k prev (t ++ s) n = k (lastChar prev t) s (n + String.length t).
Proof.
  revert t prev n. induction lit as [| a lit IH]; intros [| c t] prev n; simpl;
    try discriminate.
  - intros _. rewrite Nat.add_0_r. reflexivity.
  - intros H. apply andb_prop in H. destruct H as [Hc Ht].
    rewrite Hc, (IH t (Some c) (S n) Ht). f_equal. lia.
Qed.

(** A literal does not match a text whose first character differs. *)
Lemma chars_first_mismatch (a : ascii) (lit : string) (k : cont)
      (prev : option ascii) (c : ascii) (s : string) (n : nat) :
  sameChar f a c = false ->
  chars f (String a lit) k prev (String c s) n = None.
Proof. intros H. simpl. rewrite H. reflexivity. Qed.

(** A greedy star in front of a continuation that accepts at the first
    character outside the class reads the whole run of the class. *)
Lemma starGreedy_run (cls : ascii -> bool) (k : cont) (t s : string)
      (prev : option ascii) (n r : nat) :
  allChars cls t = true ->
  k (lastChar prev t) s (n + String.length t) = Some r ->
  match s with EmptyString => True | String c _ => cls c = false end ->
  starGreedy cls k prev (t ++ s) n = Some r.
Proof.
  revert prev n. induction t as [| c t IH]; intros prev n Ht Hk Hs.
  - simpl in *. rewrite Nat.add_0_r in Hk.
    destruct s as [| c s]; simpl; [exact Hk |]. rewrite Hs. exact Hk.
  - simpl in Ht. apply andb_prop in Ht. destruct Ht as [Hc Ht].
    simpl. rewrite Hc.
    rewrite (IH (Some c) (S n) Ht); [reflexivity | | exact Hs].
    simpl in Hk. rewrite <- Hk. f_equal. lia.
Qed.

(** Dropping the characters of a match. *)
Lemma replaceFrom_skip (r : regex) (repl t s : string)
      (prev : option ascii) (active : bool) :
  replaceFrom f r repl prev (t ++ s) (String.length t) active =
  replaceFrom f r repl (lastChar prev t) s 0 active.
Proof.
  revert prev. induction t as [| c t IH]; intros prev; [reflexivity |].
  simpl. apply IH.
Qed.

(** A match at the head of the text is replaced and the scan goes on
    behind it (for a regex with flag [g]) or stops. *)
Lemma replaceFrom_match (r : regex) (repl t s : string) (prev : option ascii) :
  t <> EmptyString ->
  matchAt f r prev (t ++ s) = Some (String.length t) ->
  replaceFrom f r repl prev (t ++ s) 0 true =
  (repl ++ replaceFrom f r repl (lastChar prev t) s 0 (global f))%string.
Proof.
  intros Ht Hm. destruct t as [| c t]; [contradiction |].
  cbn [append String.length] in Hm. cbn [replaceFrom append]. rewrite Hm.
  f_equal. exact (replaceFrom_skip r repl t s (Some c) (global f)).
Qed.

(** Characters at which no match starts are copied. *)
Lemma replaceFrom_copy (r : regex) (repl : string) (P : ascii -> bool)
      (t s : string) (prev : option ascii) :
  (forall prev c s, P c = true -> matchAt f r prev (String c s) = None) ->
  allChars P t = true ->
  replaceFrom f r repl prev (t ++ s) 0 true =
  (t ++ replaceFrom f r repl (lastChar prev t) s 0 true)%string.
Proof.
  intros Hno. revert prev. induction t as [| c t IH]; intros prev Ht;
    [reflexivity |].
  simpl in Ht. apply andb_prop in Ht. destruct Ht as [Hc Ht].
  cbn [replaceFrom append]. rewrite (Hno prev c (t ++ s)%string Hc).
  f_equal. apply IH. exact Ht.
Qed.


End Engine.

Lemma append_empty_r (s : string) : (s ++ "")%string = s.
Proof. induction s as [| c s IH]; simpl; [| rewrite IH]; reflexivity. Qed.

Lemma append_assoc (a b c : string) :
  ((a ++ b) ++ c)%string = (a ++ (b ++ c))%string.
Proof. induction a as [| x a IH]; simpl; [| rewrite IH]; reflexivity. Qed.

Lemma length_append (a b : string) :
  String.length (a ++ b) = String.length a + String.length b.
Proof. induction a as [| x a IH]; simpl; [| rewrite IH]; reflexivity. Qed.

Lemma charIn_app (c : ascii) (a b : string) :
  charIn c (a ++ b) = charIn c a || charIn c b.
Proof.
  induction a as [| x a IH]; simpl; [reflexivity |].
  rewrite IH. apply orb_assoc.
Qed.

Lemma allChars_app (P : ascii -> bool) (a b : string) :
  allChars P (a ++ b) = allChars P a && allChars P b.
Proof.
  induction a as [| x a IH]; simpl; [reflexivity |].
  rewrite IH. apply andb_assoc.
Qed.


Lemma startsWith_charIn (c : ascii) (p s : string) :
  JS.startsWith s p = true -> charIn c p = true -> charIn c s = true.
Proof.
  revert s. induction p as [| a p IH]; intros s; simpl; [discriminate 2 |].
  destruct s as [| b s]; [discriminate |].
  intros Hs Hc. apply andb_prop in Hs. destruct Hs as [Hab Hs].
  apply Ascii.eqb_eq in Hab. subst b. simpl.
  destruct (Ascii.eqb a c); [reflexivity |]. simpl in *. eauto.
Qed.

(** Every character of a substring occurs in the string. *)
Lemma includes_charIn (c : ascii) (p s : string) :
  JS.includes s p = true -> charIn c p = true -> charIn c s = true.
Proof.
  induction s as [| b s IH]; intros Hi Hc.
  - simpl in Hi. rewrite orb_false_r in Hi. eapply startsWith_charIn; eauto.
  - cbn [JS.includes] in Hi. apply orb_prop in Hi. destruct Hi as [Hi | Hi].
    + eapply startsWith_charIn; eauto.
    + simpl. rewrite (IH Hi Hc). apply orb_true_r.
Qed.




(** Without flag [i] a literal only matches itself. *)
Lemma chars_startsWith (f : Regex.flags) (lit : string) (k : Regex.cont)
      (prev : option ascii) (s : string) (n r : nat) :
  Regex.ignoreCase f = false ->
  Regex.chars f lit k prev s n = Some r -> JS.startsWith s lit = true.
Proof.
  intros Hf. revert prev s n.
  induction lit as [| a lit IH]; intros prev s n; simpl; [reflexivity |].
  destruct s as [| c s]; [discriminate |].
  unfold Regex.sameChar. rewrite Hf.
  destruct (Ascii.eqb a c); [| discriminate].
  intros H. simpl. eapply IH. exact H.
Qed.

(** A text that starts with [p] has its first [q] where [p] has it. *)
Lemma startsWith_indexOf (q : ascii) (p s : string) :
  JS.startsWith s p = true -> charIn q p = true -> indexOf q s = indexOf q p.
Proof.
  revert s. induction p as [| a p IH]; intros s; simpl; [discriminate 2 |].
  destruct s as [| b s]; [discriminate |].
  intros Hs Hc. apply andb_prop in Hs. destruct Hs as [Hab Hs].
  apply Ascii.eqb_eq in Hab. subst b. simpl.
  destruct (Ascii.eqb a q); [reflexivity |].
  simpl in Hc. rewrite (IH s Hs Hc). reflexivity.
Qed.

Lemma indexOf_app (q : ascii) (a b : string) :
  charIn q a = false ->
  indexOf q (a ++ b) = option_map (Nat.add (String.length a)) (indexOf q b).
Proof.
  induction a as [| c a IH]; simpl.
  - intros _. destruct (indexOf q b); reflexivity.
  - intros H. apply orb_false_elim in H. destruct H as [Hc Ha].
    rewrite Hc, (IH Ha). destruct (indexOf q b); reflexivity.
Qed.

(** A greedy star in front of [accept] reads the longest run of the
    class. *)
Lemma starGreedy_accept (cls : ascii -> bool) (f : Regex.flags) (s : string)
      (prev : option ascii) (n : nat) :
  exists t s', s = (t ++ s')%string /\
    Regex.starGreedy cls Regex.accept prev s n = Some (n + String.length t) /\
    match s' with EmptyString => True | String c _ => cls c = false end.
Proof.
  revert prev n. induction s as [| c s IH]; intros prev n.
  - exists EmptyString, EmptyString. simpl. unfold Regex.accept.
    rewrite Nat.add_0_r. auto.
  - simpl. destruct (cls c) eqn:Ec.
    + destruct (IH (Some c) (S n)) as (t & s' & -> & Hr & Hs').
      exists (String c t), s'. rewrite Hr. simpl.
      repeat split; [f_equal; lia | exact Hs'].
    + exists EmptyString, (String c s). simpl. unfold Regex.accept.
      rewrite Nat.add_0_r. auto.
Qed.

(** Where no match starts at all, the text is returned as it is. *)
Lemma replaceFrom_unmatched (f : Regex.flags) (r : Regex.regex)
      (repl : string) (q : ascii) (s : string) (prev : option ascii) :
  (forall prev t, charIn q t = false -> Regex.matchAt f r prev t = None) ->
  charIn q s = false ->
  Regex.replaceFrom f r repl prev s 0 true = s.
Proof.
  intros Hno. revert prev. induction s as [| c s IH]; intros prev Hs.
  - cbn [Regex.replaceFrom]. rewrite (Hno prev EmptyString eq_refl). reflexivity.
  - cbn [Regex.replaceFrom]. rewrite (Hno prev _ Hs).
    simpl in Hs. apply orb_false_elim in Hs. destruct Hs as [_ Hs].
    rewrite (IH (Some c) Hs). reflexivity.
Qed.

End RegexFacts.

(* ================================================================== *)
(** * Properties of the redaction *)
(* ================================================================== *)

Module ErrorFacts.
Import Regex Errors Notions RegexFacts.


(** ** Every sanitized message is redacted *)

Local Abbreviation marker := "password=***".
Local Abbreviation out := (replaceFrom flag_gi passwordFragment marker).















(** ** The two replacements and the words of the policy *)






















End ErrorFacts.

(* ================================================================== *)
(** * Properties of the validator *)
(* ================================================================== *)

Module ValidatorFacts.
Import QueryValidator Notions.

(** What an accepting run of [validateQuery] went through. *)
Lemma validateQuery_valid_inv (q : string) :
  valid (validateQuery q) = true ->
  JS.truthy (normalizeQuery q) = true /\
  startsWithAllowed (normalizeQuery q) = true /\
  findBlockedKeyword (normalizeQuery q) = None /\
  findBypassPattern q = None /\
  validateQuery q = mkResult true None (Some "SELECT").
Proof.
  unfold validateQuery.
  destruct (JS.truthy (normalizeQuery q)); cbn [negb]; [| discriminate].
  destruct (startsWithAllowed (normalizeQuery q)); cbn [negb]; [| discriminate].
  destruct (findBlockedKeyword (normalizeQuery q)); [discriminate |].
  destruct (findBypassPattern q); [discriminate |].
  intros _. repeat split.
Qed.

(** The verdict is a function of the normalized text and of the bypass
    scan of the text as passed. *)
Lemma validateQuery_ext (q1 q2 : string) :
  normalizeQuery q1 = normalizeQuery q2 ->
  findBypassPattern q1 = findBypassPattern q2 ->
  validateQuery q1 = validateQuery q2.
Proof.
  intros Hn Hb. unfold validateQuery. rewrite Hn, Hb. reflexivity.
Qed.

Lemma upperChar_not_space (c : ascii) :
  JS.isWhiteSpace c = false -> JS.upperChar c <> " "%char.
Proof.
  destruct c as [[] [] [] [] [] [] [] []]; vm_compute; congruence.
Qed.

Lemma trimStart_head (s : string) (c : ascii) (t : string) :
  JS.trimStart s = String c t -> JS.isWhiteSpace c = false.
Proof.
  induction s as [| a s IH]; simpl; [discriminate |].
  destruct (JS.isWhiteSpace a) eqn:E; [exact IH |].
  intros H. injection H as -> _. exact E.
Qed.

Lemma trimEnd_head (s : string) (c : ascii) (t : string) :
  JS.trimEnd s = String c t -> exists t', s = String c t'.
Proof.
  destruct s as [| a s]; simpl; [discriminate |].
  destruct (JS.trimEnd s).
  - destruct (JS.isWhiteSpace a); [discriminate |].
    intros H. injection H as -> _. eauto.
  - intros H. injection H as -> _. eauto.
Qed.

Lemma trim_head (s : string) (c : ascii) (t : string) :
  JS.trim s = String c t -> JS.isWhiteSpace c = false.
Proof.
  unfold JS.trim. intros H.
  destruct (trimEnd_head _ _ _ H) as [t' Ht'].
  exact (trimStart_head _ _ _ Ht').
Qed.

(** A normalized text never starts with a space, so its first word is
    empty only when the text is. *)
Lemma normalizeQuery_firstWord (q : string) :
  JS.truthy (normalizeQuery q) = true ->
  JS.splitHead " " (normalizeQuery q) <> EmptyString.
Proof.
  unfold normalizeQuery.
  destruct (JS.trim _) as [| c t] eqn:E; [discriminate |].
  intros _. cbn [JS.toUpperCase]. unfold JS.upperUnits.
  destruct (JS.code c =? 223); [discriminate |].
  cbn [append JS.splitHead].
  pose proof (upperChar_not_space c (trim_head _ _ _ E)) as Hc.
  destruct (Ascii.eqb_spec (JS.upperChar c) " "%char); [contradiction | discriminate].
Qed.

Lemma blocked_keyword_nonempty (n kw : string) :
  findBlockedKeyword n = Some kw -> kw <> EmptyString.
Proof.
  unfold findBlockedKeyword. intros H.
  apply find_some in H. destruct H as [Hin _].
  unfold BLOCKED_KEYWORDS in Hin. simpl in Hin.
  repeat (destruct Hin as [<- | Hin]; [discriminate |]).
  contradiction.
Qed.

(** Cases of the repository's test suite for the validator. *)
Example suite_valid_queries :
  valid (validateQuery "SELECT * FROM users") = true /\
  valid (validateQuery "SELECT id, name FROM users WHERE id = 1") = true /\
  valid (validateQuery "SET SHOWPLAN_XML ON") = true /\
  valid (validateQuery "SeLeCt * FrOm users") = true /\
  valid (validateQuery "SELECT created_at FROM users") = true /\
  valid (validateQuery "SELECT deleted FROM users WHERE deleted = 0") = true /\
  valid (validateQuery "SELECT inserted_by FROM audit_log") = true /\
  valid (validateQuery ("SELECT * /* this is" ++ nl ++ "a multi-line comment */ FROM users")) = true /\
  valid (validateQuery ("SELECT * FROM users -- this is a comment" ++ nl ++ " WHERE id = 1")) = true.
Proof. vm_compute. repeat split. Qed.

Example suite_rejected_queries :
  validateQuery "" = mkResult false (Some "Query is empty") (Some "EMPTY") /\
  reason (validateQuery ("   " ++ nl ++ "  ")) = Some "Query is empty" /\
  validateQuery "DELETE FROM Users" =
    mkResult false
      (Some "Query must start with SELECT or WITH (CTE). Found: DELETE")
      (Some "DELETE") /\
  queryType (validateQuery "SELECT * FROM Users; DROP TABLE Users") = Some "DROP" /\
  queryType (validateQuery "SELECT * FROM users WHERE EXEC sp_help = 1") = Some "EXEC" /\
  reason (validateQuery "SELECT * INTO #temp FROM users") =
    Some "Query contains blocked pattern: SELECT INTO creates tables" /\
  valid (validateQuery "SELECT * INTO @temp FROM users") = false /\
  queryType (validateQuery "SELECT * FROM users FOR UPDATE") = Some "UPDATE" /\
  reason (validateQuery "SELECT * FROM OPENQUERY(server, 'SELECT 1')") =
    Some "Query contains blocked pattern: OPENQUERY is not allowed" /\
  valid (validateQuery ("SELECT * FROM users; --" ++ nl ++ "DELETE FROM users")) = false /\
  valid (validateQuery ("SELECT 1; -- " ++ nl ++ "DELETE FROM x")) = false /\
  valid (validateQuery "SELECT 1 -- DELETE FROM x") = true.
Proof. vm_compute. repeat split. Qed.

(** C1.  The gate accepts a [SELECT ... INTO] whose [INTO] is on the
    line after [SELECT]: [validateQuery] answers [valid = true] although
    the comment-stripped, normalized text of the query matches the
    bypass pattern for [SELECT INTO].  The bypass patterns are tested on
    the text as passed, where [.] stops at the line break. *)
Theorem C1_select_into_on_next_line_is_accepted :
  let T := "SELECT *" ++ nl ++ "INTO t2 FROM t" in
  validateQuery T = mkResult true None (Some "SELECT") /\
  normalizeQuery T = "SELECT * INTO T2 FROM T" /\
  findBypassPattern (normalizeQuery T) = Some "SELECT INTO creates tables" /\
  findBypassPattern T = None.
Proof. vm_compute. repeat split. Qed.

(** What does hold of every accepted text: the normalized text starts
    with an allowed keyword and has no blocked keyword at a word
    boundary, and the text as passed matches no bypass pattern. *)
Lemma validateQuery_sound_on_raw_text (T : string) :
  valid (validateQuery T) = true ->
  startsWithAllowed (normalizeQuery T) = true /\
  (forall keyword, In keyword BLOCKED_KEYWORDS ->
     Regex.test Regex.flag_i (keywordRegex keyword) (normalizeQuery T) = false) /\
  (forall pattern description, In (pattern, description) bypassPatterns ->
     Regex.test Regex.flag_i pattern T = false).
Proof.
  intros H. destruct (validateQuery_valid_inv T H) as (_ & H1 & H2 & H3 & _).
  split; [exact H1 |]. split.
  - intros keyword Hin. unfold findBlockedKeyword in H2.
    exact (find_none _ _ H2 keyword Hin).
  - intros pattern description Hin. unfold findBypassPattern in H3.
    destruct (find _ bypassPatterns) eqn:E; [discriminate |].
    exact (find_none _ _ E (pattern, description) Hin).
Qed.

(** C2, as stated, fails on two inputs.  Stripping the block comment of
    the first uncovers a line comment, so that stripping again changes
    the text and the verdict; the second is rejected for a stacked
    statement that stands inside its line comment only. *)
Lemma C2_verdict_differs_after_stripping :
  (let Q := "SELECT 1 -/* */- DROP TABLE x" in
   valid (validateQuery Q) = false /\
   valid (validateQuery (removeComments Q)) = true) /\
  (let Q := "SELECT 1 -- ; DROP x" in
   validateQuery Q =
     mkResult false
       (Some "Query contains blocked pattern: Stacked query with write operation")
       (Some "BLOCKED_PATTERN") /\
   valid (validateQuery (removeComments Q)) = true).
Proof. vm_compute. repeat split. Qed.

(** C5.  [updated_at] contains UPDATE but not at a word boundary and the
    query is accepted; in [SELECT 1; UPDATE users SET x=1] the keyword
    stands alone and is reported. *)
Theorem C5_word_boundary_examples :
  validateQuery "SELECT updated_at FROM users"
    = mkResult true None (Some "SELECT") /\
  findBlockedKeyword (normalizeQuery "SELECT updated_at FROM users") = None /\
  valid (validateQuery "SELECT 1; UPDATE users SET x=1") = false /\
  queryType (validateQuery "SELECT 1; UPDATE users SET x=1") = Some "UPDATE".
Proof. vm_compute. repeat split. Qed.

(** C6, as stated, fails: a query that starts with WITH and passes all
    checks is reported with queryType SELECT, not CTE. *)
Lemma C6_cte_is_reported_as_select :
  let q := "WITH c AS (SELECT 1) SELECT * FROM c" in
  valid (validateQuery q) = true /\
  JS.startsWith (normalizeQuery q) "WITH" = true /\
  queryType (validateQuery q) = Some "SELECT" /\
  queryType (validateQuery q) <> Some "CTE".
Proof. vm_compute. repeat split. discriminate. Qed.

(** C6, amended.  Every query that passes all checks gets the verdict
    [{valid: true, queryType: "SELECT"}], whatever its leading keyword;
    the category CTE of a query that starts with WITH is what the
    separate function [getQueryType] returns. *)
Theorem C6_accepted_query_type_is_select (q : string) :
  valid (validateQuery q) = true ->
  validateQuery q = mkResult true None (Some "SELECT") /\
  (JS.startsWith (normalizeQuery q) "WITH" = true -> getQueryType q = "CTE").
Proof.
  intros H. destruct (validateQuery_valid_inv q H) as (_ & _ & _ & _ & Hv).
  split; [exact Hv |].
  intros Hw. unfold getQueryType. rewrite Hw. reflexivity.
Qed.

(** The amended C6 on a query that starts with WITH. *)
Lemma C6_accepted_query_type_witness :
  let q := "WITH c AS (SELECT 1) SELECT * FROM c" in
  validateQuery q = mkResult true None (Some "SELECT") /\
  (JS.startsWith (normalizeQuery q) "WITH" = true -> getQueryType q = "CTE").
Proof.
  apply (C6_accepted_query_type_is_select "WITH c AS (SELECT 1) SELECT * FROM c").
  vm_compute. reflexivity.
Defined.

(** C10.  A rejecting verdict carries a non-empty reason and a non-empty
    queryType; an accepting verdict carries no reason and a queryType. *)
Theorem C10_verdict_well_formed (q : string) :
  (valid (validateQuery q) = false ->
   exists r t, reason (validateQuery q) = Some r /\ r <> EmptyString /\
               queryType (validateQuery q) = Some t /\ t <> EmptyString) /\
  (valid (validateQuery q) = true ->
   reason (validateQuery q) = None /\
   exists t, queryType (validateQuery q) = Some t /\ t <> EmptyString).
Proof.
  split.
  - unfold validateQuery.
    destruct (JS.truthy (normalizeQuery q)) eqn:Ht; cbn [negb].
    + destruct (startsWithAllowed (normalizeQuery q)); cbn [negb].
      * destruct (findBlockedKeyword (normalizeQuery q)) as [kw |] eqn:Hk.
        -- intros _. do 2 eexists. cbn [reason queryType].
           repeat split; [discriminate |].
           exact (blocked_keyword_nonempty _ _ Hk).
        -- destruct (findBypassPattern q); [| discriminate].
           intros _. do 2 eexists. cbn [reason queryType].
           repeat split; discriminate.
      * intros _. do 2 eexists. cbn [reason queryType].
        repeat split; [discriminate |].
        exact (normalizeQuery_firstWord q Ht).
    + intros _. do 2 eexists. cbn [reason queryType].
      repeat split; discriminate.
  - intros H. destruct (validateQuery_valid_inv q H) as (_ & _ & _ & _ & Hv).
    rewrite Hv. cbn [reason queryType]. split; [reflexivity |].
    eexists. split; [reflexivity | discriminate].
Qed.

End ValidatorFacts.

(* ================================================================== *)
(** * Properties of the execution pipeline *)
(* ================================================================== *)

Module ExecuteFacts.
Import QueryValidator Errors Execute Notions RegexFacts ErrorFacts.

Local Open Scope Z_scope.

Lemma addParameters_run (params : record value) (w : world) :
  addParameters params w =
  (mkWorld (clock w) (rev (inputCalls params) ++ trace w), inr (inputsOf params)).
Proof.
  revert w. induction params as [| [name v] rest IH]; intros w.
  - destruct w; reflexivity.
  - cbn [addParameters]. unfold bind at 1. cbn [emit].
    unfold bind at 1. rewrite IH. cbn [ret clock trace inputsOf inputCalls map fst snd rev].
    rewrite <- app_assoc. reflexivity.
Qed.

(** A run of [executeQuery] that passes the gate and gets a pool, up to
    the answer of the driver. *)
Lemma executeQuery_run (READONLY : bool) (d : driver) (query : string)
      (params : record value) (maxRows : number) (w : world) :
  (READONLY = false \/ valid (validateQuery query) = true) ->
  connect d = None ->
  executeQuery READONLY d query params maxRows w =
  let dt := fst (answer d query (inputsOf params)) in
  let calls := callsBeforeAnswer READONLY query params w in
  match snd (answer d query (inputsOf params)) with
  | inr result =>
      let limitedRows := slice0 (rowsOf result) maxRows in
      let totalRows := Z.of_nat (List.length (rowsOf result)) in
      (mkWorld (clock w + dt)
         (CallLogger "debug" "Query executed"
            [ ("rowsReturned", num (Z.of_nat (List.length limitedRows)));
              ("totalRows", num totalRows);
              ("duration", num (clock w + dt - clock w));
              ("readonly", VBoolean READONLY) ] :: calls),
       inr (mkQueryResult limitedRows totalRows
              match recordset result with
              | Some (mkRecordset _ (Some cols)) =>
                  map (fun nc => mkField (fst nc) (orElse (snd nc) "unknown")) cols
              | _ => []
              end
              (clock w + dt - clock w)))
  | inl error =>
      let message := getErrorMessage error in
      (mkWorld (clock w + dt)
         (CallLogger "error" "Query execution failed"
            [ ("error", VString message);
              ("duration", num (clock w + dt - clock w));
              ("query", VString (JS.take 200 query)) ] :: calls),
       inl (if JS.includes message "timeout" || JS.includes message "Timeout"
            then Mcp (TimeoutError (clock w + dt - clock w))
            else error))
  end.
Proof.
  intros Hgate Hpool.
  unfold executeQuery, callsBeforeAnswer, rowsOf.
  unfold bind at 1. cbn [dateNow].
  unfold bind at 1.
  assert (Hpre :
    (if READONLY
     then emit (CallValidateQuery query);;;
          (if negb (valid (validateQuery query))
           then throw (Mcp (QueryValidationError
                   (orElse (reason (validateQuery query)) "Query validation failed")
                   None))
           else ret tt)
     else ret tt) w =
    (mkWorld (clock w)
       (if READONLY then CallValidateQuery query :: trace w else trace w), inr tt)).
  { destruct READONLY.
    - destruct Hgate as [Hf | Hv]; [discriminate |].
      unfold bind, emit. rewrite Hv. reflexivity.
    - destruct w; reflexivity. }
  rewrite Hpre. clear Hpre.
  unfold tryCatch, getPool. rewrite Hpool.
  unfold bind at 1. unfold bind at 1. cbn [emit ret clock trace].
  unfold bind at 1. cbn [emit clock trace].
  unfold bind at 1. rewrite addParameters_run. cbn [clock trace].
  unfold bind at 1. unfold requestQuery.
  destruct (answer d query (inputsOf params)) as [dt outcome].
  cbn [fst snd].
  unfold bind at 1. cbn [emit clock trace].
  unfold bind at 1. cbn [elapse clock trace].
  destruct outcome as [error | result].
  - cbn [throw]. unfold bind at 1. cbn [dateNow clock].
    unfold bind at 1. cbn [emit clock trace].
    destruct (JS.includes (getErrorMessage error) "timeout"
              || JS.includes (getErrorMessage error) "Timeout"); reflexivity.
  - cbn [ret]. unfold bind at 1. cbn [dateNow clock].
    unfold bind at 1. cbn [emit clock trace ret]. reflexivity.
Qed.

Lemma slice0_count {A : Type} (xs : list A) (L : nat) :
  slice0 xs (ofZ (Z.of_nat L)) = firstn L xs.
Proof.
  unfold slice0, ofZ, toIntegerOrInfinity. cbn [Z.leb Z.compare].
  change (2 ^ 0) with 1. rewrite Z.mul_1_r.
  destruct (Z.ltb_spec (Z.of_nat L) 0) as [Hneg | _]; [lia |].
  destruct (Nat.le_gt_cases L (List.length xs)) as [Hle | Hgt].
  - rewrite Z.min_l by lia. rewrite Nat2Z.id. reflexivity.
  - rewrite Z.min_r by lia. rewrite Nat2Z.id.
    rewrite firstn_all. symmetry. apply firstn_all2. lia.
Qed.

(** A negative limit is counted from the end of the rows, as
    [Array.prototype.slice] does. *)
Example slice0_negative_limit :
  slice0 [1; 2; 3] (ofZ (-1)) = [1; 2].
Proof. reflexivity. Qed.

(** C3.  Under the read-only policy [executeWrite] throws
    [ReadOnlyViolationError] for every statement, parameter map and
    driver, and leaves the world as it found it: the clock is not read
    and no call is made, neither to the validator nor to the pool, the
    request or the logger. *)
Theorem C3_executeWrite_rejected_when_readonly
        (d : driver) (query : string) (params : record value) (w : world) :
  executeWrite true d query params w =
    (w, inl (Mcp (ReadOnlyViolationError
                    "Write operations are not allowed in READONLY mode"))) /\
  trace (fst (executeWrite true d query params w)) = trace w.
Proof. split; reflexivity. Qed.

(** C4.  When the driver answers a statement with N rows and the caller
    passes the row limit L (a count), [executeQuery] returns the first
    min(L, N) rows of the answer, in order, and rowCount = N; when
    L < N it returns L rows and rowCount exceeds the number of rows
    returned. *)
Theorem C4_row_limit_truncation
        (READONLY : bool) (d : driver) (query : string) (params : record value)
        (L : nat) (w : world) (dt : Z) (result : driverResult) :
  (READONLY = false \/ valid (validateQuery query) = true) ->
  connect d = None ->
  answer d query (inputsOf params) = (dt, inr result) ->
  exists w' r,
    executeQuery READONLY d query params (ofZ (Z.of_nat L)) w = (w', inr r) /\
    rows r = firstn L (rowsOf result) /\
    rowCount r = Z.of_nat (List.length (rowsOf result)) /\
    List.length (rows r) = Nat.min L (List.length (rowsOf result)) /\
    ((L < List.length (rowsOf result))%nat ->
     List.length (rows r) = L /\ Z.of_nat (List.length (rows r)) < rowCount r).
Proof.
  intros Hgate Hpool Hans.
  rewrite (executeQuery_run READONLY d query params _ w Hgate Hpool).
  rewrite Hans. cbn [fst snd]. cbv zeta.
  do 2 eexists. split; [reflexivity |].
  cbn [rows rowCount]. rewrite slice0_count.
  split; [reflexivity |]. split; [reflexivity |].
  split; [apply length_firstn |].
  intros Hlt. rewrite length_firstn. lia.
Qed.

(** C4 on the scenario of ten rows and a limit of three. *)
Lemma C4_row_limit_witness :
  exists w' r,
    executeQuery true tenRows "SELECT * FROM BigTable" [] (ofZ (Z.of_nat 3))
                 (mkWorld 0 []) = (w', inr r) /\
    rows r = [[("n", num 1)]; [("n", num 2)]; [("n", num 3)]] /\
    rowCount r = 10 /\
    List.length (rows r) = 3%nat /\
    ((3 < 10)%nat ->
     List.length (rows r) = 3%nat /\ Z.of_nat (List.length (rows r)) < rowCount r).
Proof.
  apply (C4_row_limit_truncation true tenRows "SELECT * FROM BigTable" [] 3
           (mkWorld 0 []) 5
           (mkDriverResult
              (Some (mkRecordset
                       (map (fun i => [("n", num i)])
                            [1; 2; 3; 4; 5; 6; 7; 8; 9; 10])
                       None))
              [])).
  - right. vm_compute. reflexivity.
  - reflexivity.
  - reflexivity.
Defined.

(** C8, as stated, fails on its last part: for a value outside the
    union, here [undefined], the binder does not fail; it returns
    NVarChar. *)
Lemma C8_undefined_is_bound_as_NVarChar :
  inSqlParamValue VUndefined = false /\ getSqlType VUndefined = NVarChar.
Proof. split; reflexivity. Qed.

(** C8, amended.  [getSqlType] maps null and strings to NVarChar,
    integer-valued numbers to BigInt, all other numbers to Float and
    booleans to Bit; it is total, and a value outside the union is
    mapped to NVarChar as well. *)
Theorem C8_getSqlType_contract :
  getSqlType VNull = NVarChar /\
  (forall s, getSqlType (VString s) = NVarChar) /\
  (forall x, getSqlType (VNumber x) = if isInteger x then BigInt else Float) /\
  (forall z, getSqlType (VNumber (ofZ z)) = BigInt) /\
  getSqlType (VNumber (Finite 1 (-1))) = Float /\
  getSqlType (VNumber NaN) = Float /\
  (forall b, getSqlType (VBoolean b) = Bit) /\
  (forall v, inSqlParamValue v = false -> getSqlType v = NVarChar).
Proof.
  repeat split; try reflexivity.
  intros v Hv. destruct v; try discriminate; reflexivity.
Qed.

(** ** Errors on the way out *)




(** ** The INSERT builder *)

Lemma charIn_join (c : ascii) (sep : string) (xs : list string) :
  charIn c (JS.join sep xs) = true ->
  charIn c sep = true \/ exists x, In x xs /\ charIn c x = true.
Proof.
  induction xs as [| x rest IH]; [discriminate |].
  destruct rest as [| y rest].
  - simpl. intros H. right. exists x. auto.
  - change (JS.join sep (x :: y :: rest))
      with (x ++ sep ++ JS.join sep (y :: rest))%string.
    rewrite !charIn_app. intros H.
    apply orb_prop in H. destruct H as [H | H].
    + right. exists x. split; [left; reflexivity | exact H].
    + apply orb_prop in H. destruct H as [H | H]; [left; exact H |].
      destruct (IH H) as [Hs | (z & Hz & Hc)]; [left; exact Hs |].
      right. exists z. split; [right; exact Hz | exact Hc].
Qed.

Lemma charIn_subset (c : ascii) (p t : string) :
  allChars (fun a => charIn a t) p = true ->
  charIn c p = true -> charIn c t = true.
Proof.
  induction p as [| a p IH]; simpl; [discriminate 2 |].
  intros Ha Hc. apply andb_prop in Ha. destruct Ha as [Ha Hp].
  apply orb_prop in Hc. destruct Hc as [Hc | Hc]; [| auto].
  apply Ascii.eqb_eq in Hc. subst a. exact Ha.
Qed.

(** A character of the statement text comes from the template, the
    schema, the table or a column name. *)
Lemma buildInsertQuery_chars (schema table : string) (data : record value)
      (c : ascii) :
  charIn c (fst (buildInsertQuery schema table data)) = true ->
  charIn c templateChars = true \/ charIn c schema = true \/
  charIn c table = true \/ exists k, In k (keys data) /\ charIn c k = true.
Proof.
  unfold buildInsertQuery. cbn [fst].
  assert (Hlit : forall p, allChars (fun a => charIn a templateChars) p = true ->
                           charIn c p = true -> charIn c templateChars = true)
    by (intros p; apply charIn_subset).
  rewrite !charIn_app. intros H.
  repeat (lazymatch type of H with
          | orb _ _ = true => apply orb_prop in H; destruct H as [H | H]
          end);
    try (left; refine (Hlit _ _ H); reflexivity);
    try (right; left; exact H); try (right; right; left; exact H).
  - destruct (charIn_join _ _ _ H) as [Hs | (k & Hk & Hc)].
    + left. refine (Hlit _ _ Hs). reflexivity.
    + right; right; right. eauto.
  - destruct (charIn_join _ _ _ H) as [Hs | (p & Hp & Hc)].
    + left. refine (Hlit _ _ Hs). reflexivity.
    + apply in_map_iff in Hp. destruct Hp as (k & <- & Hk).
      rewrite charIn_app in Hc. apply orb_prop in Hc. destruct Hc as [Hc | Hc].
      * left. refine (Hlit _ _ Hc). reflexivity.
      * right; right; right. eauto.
Qed.

(** C9, as stated, fails: a value made of a metacharacter of the
    template occurs in the statement text, and so does the spec's own
    example value when an identifier contains it. *)
Lemma C9_value_can_occur_in_statement_text :
  JS.includes (fst (buildInsertQuery "dbo" "users" [("name", VString ";")]))
              ";" = true /\
  JS.includes
    (fst (buildInsertQuery "dbo" "t'; DROP TABLE users; --"
            [("name", VString "'; DROP TABLE users; --")]))
    "'; DROP TABLE users; --" = true.
Proof. vm_compute. split; reflexivity. Qed.

(** C9, amended.  The statement text of [buildInsertQuery] is a function
    of the schema, the table and the column names alone, and the map is
    returned unchanged as the parameters.  A text that contains a
    character found neither in the template nor in the schema, the table
    or a column name is not a substring of the statement text. *)
Theorem C9_builder_non_interpolation :
  (forall schema table (d1 d2 : record value),
     keys d1 = keys d2 ->
     fst (buildInsertQuery schema table d1) =
     fst (buildInsertQuery schema table d2)) /\
  (forall schema table (data : record value),
     snd (buildInsertQuery schema table data) = data) /\
  (forall schema table (data : record value) (text : string) (c : ascii),
     charIn c text = true ->
     charIn c templateChars = false ->
     charIn c schema = false ->
     charIn c table = false ->
     (forall k, In k (keys data) -> charIn c k = false) ->
     JS.includes (fst (buildInsertQuery schema table data)) text = false).
Proof.
  split; [| split].
  - intros schema table d1 d2 Hk. unfold buildInsertQuery. cbn [fst].
    rewrite Hk. reflexivity.
  - reflexivity.
  - intros schema table data text c Hc Ht Hs Hb Hk.
    destruct (JS.includes _ text) eqn:E; [exfalso | reflexivity].
    pose proof (includes_charIn c _ _ E Hc) as Hq.
    destruct (buildInsertQuery_chars _ _ _ _ Hq)
      as [H | [H | [H | (k & Hin & H)]]]; try congruence.
    rewrite (Hk k Hin) in H. discriminate.
Qed.

(** The amended C9 on the example value of the spec. *)
Lemma C9_builder_witness :
  fst (buildInsertQuery "dbo" "users"
         [("name", VString "'; DROP TABLE users; --")]) =
  fst (buildInsertQuery "dbo" "users" [("name", VString "John")]) /\
  JS.includes
    (fst (buildInsertQuery "dbo" "users"
            [("name", VString "'; DROP TABLE users; --")]))
    "'; DROP TABLE users; --" = false.
Proof.
  destruct C9_builder_non_interpolation as (Hkeys & _ & Hsub).
  split.
  - apply Hkeys. reflexivity.
  - apply (Hsub "dbo" "users" _ _ "'"%char); try reflexivity.
    intros k [<- | []]. reflexivity.
Defined.

End ExecuteFacts.



(* ================================================================== *)
(** * Further properties of the matcher *)
(* ================================================================== *)

Module RegexMore.
Import Regex Notions RegexFacts.

Lemma includes_tail (c : ascii) (t p : string) :
  JS.includes (String c t) p = false -> JS.includes t p = false.
Proof.
  cbn [JS.includes]. intros H. apply orb_false_elim in H. tauto.
Qed.

(** Where no match can start in any rest of the text, the text is
    returned as it is. *)
Lemma replaceFrom_closed (f : flags) (r : regex) (repl : string)
      (Q : string -> bool) :
  (forall prev t, Q t = true -> matchAt f r prev t = None) ->
  (forall c t, Q (String c t) = true -> Q t = true) ->
  forall s prev, Q s = true -> replaceFrom f r repl prev s 0 true = s.
Proof.
  intros Hno Htail. induction s as [| c s IH]; intros prev Hs.
  - cbn [replaceFrom]. rewrite (Hno prev _ Hs). reflexivity.
  - cbn [replaceFrom]. rewrite (Hno prev _ Hs).
    rewrite (IH (Some c) (Htail c s Hs)). reflexivity.
Qed.

(** A match behind [pre] is found by the search. *)
Lemma searchFrom_app (f : flags) (r : regex) (pre s : string)
      (prev : option ascii) :
  matchAt f r (lastChar prev pre) s <> None ->
  searchFrom f r prev (pre ++ s) = true.
Proof.
  revert prev. induction pre as [| c pre IH]; intros prev H.
  - cbn [append lastChar] in *. destruct s; cbn [searchFrom];
      destruct (matchAt f r prev _); try reflexivity; contradiction.
  - cbn [append searchFrom].
    destruct (matchAt f r prev _); [reflexivity |]. apply IH. exact H.
Qed.

Lemma sameChar_refl (f : flags) (a : ascii) : sameChar f a a = true.
Proof. unfold sameChar. destruct (ignoreCase f); apply Ascii.eqb_refl. Qed.

Lemma sameText_refl (f : flags) (s : string) : sameText f s s = true.
Proof.
  induction s as [| a s IH]; [reflexivity |].
  cbn [sameText]. rewrite sameChar_refl, IH. reflexivity.
Qed.

Lemma upperChar_idempotent (c : ascii) :
  JS.upperChar (JS.upperChar c) = JS.upperChar c.
Proof. destruct c as [[] [] [] [] [] [] [] []]; reflexivity. Qed.

(** White space is its own upper case. *)
Lemma upperUnits_space (c : ascii) :
  JS.isWhiteSpace c = true -> JS.upperUnits c = String c EmptyString.
Proof.
  destruct c as [[] [] [] [] [] [] [] []]; vm_compute; congruence.
Qed.

(** Under flag [i] a literal without SS matches every text whose upper
    case it is. *)
Lemma sameText_upper (f : flags) (lit t : string) :
  ignoreCase f = true ->
  JS.toUpperCase t = lit -> JS.includes lit "SS" = false ->
  sameText f lit t = true.
Proof.
  intros Hf. revert lit. induction t as [| c t IH]; intros lit E Hss.
  - cbn [JS.toUpperCase] in E. subst lit. reflexivity.
  - cbn [JS.toUpperCase] in E. unfold JS.upperUnits in E.
    destruct (JS.code c =? 223).
    + subst lit. discriminate.
    + subst lit. cbn [append sameText].
      unfold sameChar. rewrite Hf, upperChar_idempotent, Ascii.eqb_refl.
      apply IH; [reflexivity |]. exact (includes_tail _ _ _ Hss).
Qed.

(** One of the alternatives reads the head of the text. *)
Lemma anyOf_match (f : flags) (lits : list string) (lit t s : string)
      (prev : option ascii) (n : nat) :
  In lit lits -> sameText f lit t = true ->
  run f (anyOf lits) accept prev (t ++ s) n <> None.
Proof.
  intros Hin Ht. induction lits as [| l rest IH]; [contradiction |].
  assert (Hl : l = lit ->
               run f (Chars l) accept prev (t ++ s) n <> None).
  { intros ->. cbn [run]. rewrite (chars_sameText f lit t) by exact Ht.
    discriminate. }
  destruct rest as [| l' rest].
  - destruct Hin as [E | []]. exact (Hl E).
  - change (anyOf (l :: l' :: rest)) with (Alt (Chars l) (anyOf (l' :: rest))).
    cbn [run]. destruct (chars f l accept prev (t ++ s) n) eqn:E;
      [discriminate |].
    destruct Hin as [E' | Hin].
    + exfalso. apply (Hl E'). exact E.
    + exact (IH Hin).
Qed.

End RegexMore.

(* ================================================================== *)
(** * Further properties of the validator *)
(* ================================================================== *)

Module ValidatorMore.
Import Regex QueryValidator Notions Shapes RegexFacts ValidatorFacts.

(** ** Write statements *)

Lemma startsWith_head (s p : string) (a : ascii) :
  JS.startsWith s (String a p) = true -> exists s', s = String a s'.
Proof.
  destruct s as [| c s]; cbn [JS.startsWith]; [discriminate |].
  intros H. apply andb_prop in H. destruct H as [H _].
  apply Ascii.eqb_eq in H. subst c. eauto.
Qed.

Lemma isWriteOperation_verdict (q : string) :
  isWriteOperation q = true ->
  validateQuery q =
    leadingKeywordVerdict (JS.splitHead " " (normalizeQuery q)).
Proof.
  unfold isWriteOperation, validateQuery, leadingKeywordVerdict.
  cbn [existsb]. intros H.
  repeat (apply orb_prop in H; destruct H as [H | H]);
    try discriminate;
    apply startsWith_head in H; destruct H as [n' ->]; reflexivity.
Qed.

(** A query that [isWriteOperation] recognises is rejected by the gate
    for its leading keyword. *)
Theorem write_operation_is_rejected (q : string) :
  isWriteOperation q = true ->
  validateQuery q =
    leadingKeywordVerdict (JS.splitHead " " (normalizeQuery q)).
Proof. exact (isWriteOperation_verdict q). Qed.

Lemma write_operation_witness :
  validateQuery "delete from users" = leadingKeywordVerdict "DELETE".
Proof.
  apply (write_operation_is_rejected "delete from users").
  vm_compute. reflexivity.
Defined.

(** ** Leading-keyword rejections and [getQueryType] *)

(** For a non-empty query that does not start with an allowed keyword,
    the word the verdict reports is [getQueryType] of the query. *)
Theorem rejected_type_is_getQueryType (q : string) :
  JS.truthy (normalizeQuery q) = true ->
  startsWithAllowed (normalizeQuery q) = false ->
  validateQuery q = leadingKeywordVerdict (getQueryType q).
Proof.
  intros Ht Ha. unfold validateQuery, getQueryType, leadingKeywordVerdict.
  rewrite Ht, Ha. cbn [negb].
  unfold startsWithAllowed in Ha. cbn [existsb] in Ha.
  apply orb_false_elim in Ha. destruct Ha as [_ Ha].
  apply orb_false_elim in Ha. destruct Ha as [Hw Ha].
  apply orb_false_elim in Ha. destruct Ha as [Hs _].
  rewrite Hw, Hs. reflexivity.
Qed.

Lemma rejected_type_witness :
  validateQuery "PRINT 1" = leadingKeywordVerdict (getQueryType "PRINT 1").
Proof.
  apply (rejected_type_is_getQueryType "PRINT 1"); vm_compute; reflexivity.
Defined.

(** ** Comments *)

Lemma lineComment_needs_dashes (prev : option ascii) (t : string) :
  negb (JS.includes t "--") = true ->
  matchAt flag_gm lineComment prev t = None.
Proof.
  intros H. unfold matchAt, lineComment. cbn [run].
  destruct (chars flag_gm "--" _ prev t 0) eqn:E; [| reflexivity].
  apply chars_startsWith in E; [| reflexivity].
  destruct t; cbn [JS.includes] in H; rewrite E in H; discriminate.
Qed.

Lemma blockComment_needs_opener (prev : option ascii) (t : string) :
  negb (JS.includes t "/*") = true ->
  matchAt flag_g blockComment prev t = None.
Proof.
  intros H. unfold matchAt, blockComment. cbn [run].
  destruct (chars flag_g "/*" _ prev t 0) eqn:E; [| reflexivity].
  apply chars_startsWith in E; [| reflexivity].
  destruct t; cbn [JS.includes] in H; rewrite E in H; discriminate.
Qed.

Lemma not_includes_tail (p : string) (c : ascii) (t : string) :
  negb (JS.includes (String c t) p) = true -> negb (JS.includes t p) = true.
Proof.
  intros H. apply negb_true_iff in H. apply RegexMore.includes_tail in H.
  rewrite H. reflexivity.
Qed.

Lemma removeComments_no_opener (q : string) :
  JS.includes q "--" = false -> JS.includes q "/*" = false ->
  removeComments q = q.
Proof.
  intros Hl Hb. unfold removeComments, replace.
  rewrite (RegexMore.replaceFrom_closed flag_gm lineComment ""
             (fun t => negb (JS.includes t "--"))
             lineComment_needs_dashes (not_includes_tail "--") q None)
    by (rewrite Hl; reflexivity).
  apply (RegexMore.replaceFrom_closed flag_g blockComment ""
           (fun t => negb (JS.includes t "/*"))
           blockComment_needs_opener (not_includes_tail "/*") q None).
  rewrite Hb. reflexivity.
Qed.

(** A query without [--] and without [/*] has no comment to remove. *)
Theorem removeComments_without_comment (q : string) :
  JS.includes q "--" = false -> JS.includes q "/*" = false ->
  removeComments q = q.
Proof. exact (removeComments_no_opener q). Qed.

Lemma removeComments_without_comment_witness :
  removeComments "SELECT a - b, c / d FROM t" = "SELECT a - b, c / d FROM t".
Proof.
  apply (removeComments_without_comment "SELECT a - b, c / d FROM t");
    vm_compute; reflexivity.
Defined.

(** ** White space *)

Local Abbreviation collapse := (replaceFrom flag_g whiteSpaceRun " ").

Lemma whiteSpace_not_comment_start (c : ascii) :
  JS.isWhiteSpace c = true ->
  Ascii.eqb "-" c = false /\ Ascii.eqb "/" c = false.
Proof. destruct c as [[] [] [] [] [] [] [] []]; vm_compute; auto; discriminate. Qed.

Lemma lineComment_not_at_space (prev : option ascii) (c : ascii) (s : string) :
  JS.isWhiteSpace c = true ->
  matchAt flag_gm lineComment prev (String c s) = None.
Proof.
  intros H. unfold matchAt, lineComment. cbn [run].
  apply chars_first_mismatch. unfold sameChar. cbn [ignoreCase flag_gm].
  exact (proj1 (whiteSpace_not_comment_start c H)).
Qed.

Lemma blockComment_not_at_space (prev : option ascii) (c : ascii) (s : string) :
  JS.isWhiteSpace c = true ->
  matchAt flag_g blockComment prev (String c s) = None.
Proof.
  intros H. unfold matchAt, blockComment. cbn [run].
  apply chars_first_mismatch. unfold sameChar. cbn [ignoreCase flag_g].
  exact (proj2 (whiteSpace_not_comment_start c H)).
Qed.

Lemma removeComments_whiteSpace (q : string) :
  allChars JS.isWhiteSpace q = true -> removeComments q = q.
Proof.
  intros H. unfold removeComments, replace.
  rewrite <- (append_empty_r q) at 1.
  rewrite (replaceFrom_copy flag_gm lineComment "" JS.isWhiteSpace q ""
             None lineComment_not_at_space H).
  cbn [replaceFrom matchAt]. rewrite append_empty_r.
  rewrite <- (append_empty_r q) at 1.
  rewrite (replaceFrom_copy flag_g blockComment "" JS.isWhiteSpace q ""
             None blockComment_not_at_space H).
  cbn [replaceFrom matchAt]. apply append_empty_r.
Qed.

(** What the white-space pattern does at the head of a text: it reads
    the run of white space, which ends at the end of the text or at
    another character, or it does not match. *)
Lemma whiteSpaceRun_matchAt (prev : option ascii) (s : string) :
  (exists t s', s = (t ++ s')%string /\ t <> EmptyString /\
     matchAt flag_g whiteSpaceRun prev s = Some (String.length t) /\
     match s' with
     | EmptyString => True
     | String c _ => JS.isWhiteSpace c = false
     end) \/
  (matchAt flag_g whiteSpaceRun prev s = None /\
   match s with
   | EmptyString => True
   | String c _ => JS.isWhiteSpace c = false
   end).
Proof.
  destruct s as [| c s]; [right; split; [reflexivity | exact I] |].
  unfold matchAt, whiteSpaceRun. cbn [run]. unfold space.
  destruct (JS.isWhiteSpace c) eqn:Ec; [left | right; auto].
  destruct (starGreedy_accept JS.isWhiteSpace flag_g s (Some c) 1)
    as (t & s' & -> & Hr & Hs').
  exists (String c t), s'. rewrite Hr.
  repeat split; [discriminate | exact Hs'].
Qed.

Lemma collapse_nil (prev : option ascii) :
  collapse prev EmptyString 0 true = EmptyString.
Proof. reflexivity. Qed.

(** The output of the white-space pass has single spaces only. *)
Lemma collapse_collapsed (n : nat) (s : string) (prev : option ascii)
      (b : bool) :
  String.length s <= n ->
  (b = true ->
   match s with EmptyString => True | String c _ => JS.isWhiteSpace c = false end) ->
  collapsedFrom b (collapse prev s 0 true) = true.
Proof.
  revert s prev b. induction n as [| n IH]; intros s prev b Hn Hb.
  - destruct s; [reflexivity | simpl in Hn; lia].
  - destruct (whiteSpaceRun_matchAt prev s)
      as [(t & s' & -> & Ht & Hm & Hs') | [Hm Hs]].
    + rewrite (replaceFrom_match flag_g whiteSpaceRun " " t s' prev Ht Hm).
      cbn [global flag_g append collapsedFrom].
      assert (Hlen : String.length s' <= n).
      { rewrite length_append in Hn. destruct t; [contradiction |].
        simpl in Hn. lia. }
      rewrite (IH s' (lastChar prev t) true Hlen (fun _ => Hs')).
      destruct b; [| reflexivity].
      exfalso. destruct t as [| c t]; [contradiction |].
      specialize (Hb eq_refl). cbn [append] in Hb.
      unfold matchAt, whiteSpaceRun in Hm. cbn [run append] in Hm.
      unfold space in Hm. rewrite Hb in Hm. discriminate.
    + destruct s as [| c s]; [reflexivity |].
      cbn [replaceFrom]. rewrite Hm. cbn [collapsedFrom]. rewrite Hs.
      apply IH; [simpl in Hn; lia | discriminate].
Qed.

Lemma trimStart_collapsed (s : string) :
  collapsedFrom false s = true -> collapsedFrom true (JS.trimStart s) = true.
Proof.
  destruct s as [| c s]; [reflexivity |].
  cbn [collapsedFrom JS.trimStart].
  destruct (JS.isWhiteSpace c) eqn:Ec.
  - intros H. apply andb_prop in H. destruct H as [_ H].
    destruct s as [| c' s]; [reflexivity |].
    cbn [collapsedFrom JS.trimStart] in *.
    destruct (JS.isWhiteSpace c') eqn:Ec'.
    + rewrite andb_false_r in H. discriminate.
    + cbn [collapsedFrom]. rewrite Ec'. exact H.
  - intros H. cbn [collapsedFrom]. rewrite Ec. exact H.
Qed.

Lemma trimEnd_spaced (s : string) (b : bool) :
  collapsedFrom b s = true ->
  JS.trimEnd s = EmptyString \/ spacedFrom b (JS.trimEnd s) = true.
Proof.
  revert b. induction s as [| c s IH]; intros b; [left; reflexivity |].
  cbn [collapsedFrom JS.trimEnd].
  destruct (JS.isWhiteSpace c) eqn:Ec.
  - intros H. apply andb_prop in H. destruct H as [H1 H2].
    destruct (IH true H2) as [E | E].
    + rewrite E. left. reflexivity.
    + destruct (JS.trimEnd s) as [| c' t]; [discriminate |].
      right. cbn [spacedFrom]. rewrite Ec, H1. exact E.
  - intros H. right. destruct (IH false H) as [E | E].
    + rewrite E. cbn [spacedFrom]. rewrite Ec. reflexivity.
    + destruct (JS.trimEnd s) as [| c' t].
      * cbn [spacedFrom]. rewrite Ec. reflexivity.
      * cbn [spacedFrom]. rewrite Ec. exact E.
Qed.

Lemma upperChar_space (c : ascii) :
  JS.isWhiteSpace (JS.upperChar c) = JS.isWhiteSpace c /\
  (JS.isWhiteSpace c = true -> JS.upperChar c = c) /\
  JS.isLower (JS.upperChar c) = false.
Proof.
  destruct c as [[] [] [] [] [] [] [] []]; vm_compute; repeat split;
    discriminate.
Qed.

Lemma sharp_not_space (c : ascii) :
  (JS.code c =? 223) = true -> JS.isWhiteSpace c = false.
Proof. destruct c as [[] [] [] [] [] [] [] []]; vm_compute; congruence. Qed.

Lemma toUpperCase_spaced (s : string) (b : bool) :
  spacedFrom b (JS.toUpperCase s) = spacedFrom b s.
Proof.
  revert b. induction s as [| c s IH]; intros b; [reflexivity |].
  cbn [JS.toUpperCase]. unfold JS.upperUnits.
  destruct (JS.code c =? 223) eqn:E.
  - cbn [append spacedFrom]. rewrite (sharp_not_space c E).
    change (JS.isWhiteSpace "S") with false. cbv iota. apply IH.
  - cbn [append spacedFrom].
    destruct (upperChar_space c) as (Hw & Hsame & _). rewrite Hw.
    destruct (JS.isWhiteSpace c) eqn:Ec.
    + rewrite (Hsame eq_refl), IH. reflexivity.
    + apply IH.
Qed.

Lemma toUpperCase_no_lower (s : string) :
  allChars (fun c => negb (JS.isLower c)) (JS.toUpperCase s) = true.
Proof.
  induction s as [| c s IH]; [reflexivity |].
  cbn [JS.toUpperCase]. unfold JS.upperUnits.
  destruct (JS.code c =? 223).
  - cbn [append allChars]. rewrite IH. reflexivity.
  - cbn [append allChars].
    destruct (upperChar_space c) as (_ & _ & Hl). rewrite Hl, IH. reflexivity.
Qed.

(** For a query of code units whose upper case is modelled,
    [normalizeQuery] returns a normalized text: no letter a-z, no white
    space (TAB, LF, VT, FF, CR, SPACE, NO-BREAK SPACE) at either end,
    and no white space but single SPACE characters between words. *)
Theorem normalizeQuery_isNormalized (q : string) :
  allChars JS.hasUpperUnit q = true ->
  isNormalized (normalizeQuery q) = true.
Proof.
  intros _. unfold isNormalized. rewrite andb_true_iff. split.
  - unfold normalizeQuery, JS.trim, replace.
    pose proof (collapse_collapsed _ (removeComments q) None false
                  (Nat.le_refl _) (fun H => False_ind _ (diff_false_true H)))
      as Hc.
    apply trimStart_collapsed in Hc.
    destruct (trimEnd_spaced _ true Hc) as [E | E].
    + rewrite E. reflexivity.
    + rewrite <- toUpperCase_spaced in E.
      destruct (JS.toUpperCase _); [reflexivity | exact E].
  - apply toUpperCase_no_lower.
Qed.

(** The theorem on a query with no-break spaces and a tabulation. *)
Lemma normalizeQuery_isNormalized_witness :
  let q := String JS.NBSP ("select" ++ String JS.NBSP (String JS.NBSP "1"))
             ++ String (ascii_of_nat 9) "" in
  isNormalized (normalizeQuery q) = true /\ normalizeQuery q = "SELECT 1".
Proof.
  split; [| vm_compute; reflexivity].
  apply (normalizeQuery_isNormalized
           (String JS.NBSP ("select" ++ String JS.NBSP (String JS.NBSP "1"))
              ++ String (ascii_of_nat 9) "")).
  vm_compute. reflexivity.
Defined.

(** A query made of white space only (TAB, LF, VT, FF, CR, SPACE and
    NO-BREAK SPACE) is rejected as empty. *)
Theorem whiteSpace_query_is_empty (q : string) :
  allChars JS.isWhiteSpace q = true -> validateQuery q = emptyVerdict.
Proof.
  intros H.
  assert (Hn : normalizeQuery q = EmptyString).
  { unfold normalizeQuery. rewrite (removeComments_whiteSpace q H).
    unfold replace. destruct q as [| c q]; [reflexivity |].
    assert (Hm : matchAt flag_g whiteSpaceRun None (String c q ++ "")
                 = Some (String.length (String c q))).
    { unfold matchAt, whiteSpaceRun. cbn [run append]. unfold space.
      cbn [allChars] in H. apply andb_prop in H. destruct H as [Hc Hq].
      rewrite Hc.
      rewrite (starGreedy_run JS.isWhiteSpace accept q "" (Some c) 1
                 (S (String.length q)) Hq eq_refl I).
      reflexivity. }
    rewrite <- (append_empty_r (String c q)).
    rewrite (replaceFrom_match flag_g whiteSpaceRun " " (String c q) "" None)
      by (try discriminate; exact Hm).
    reflexivity. }
  unfold validateQuery. rewrite Hn. reflexivity.
Qed.

Lemma whiteSpace_query_witness :
  validateQuery (String JS.NBSP (" " ++ JS.nl ++ String JS.NBSP " "))
    = emptyVerdict.
Proof.
  apply (whiteSpace_query_is_empty
           (String JS.NBSP (" " ++ JS.nl ++ String JS.NBSP " "))).
  reflexivity.
Defined.

(** ** Blocked keywords and stacked statements *)

Lemma lastChar_nonempty (prev : option ascii) (s : string) :
  s <> EmptyString -> lastChar prev s = lastChar None s.
Proof. destruct s; [contradiction | reflexivity]. Qed.

Lemma next_app (t s : string) :
  t <> EmptyString -> next (t ++ s) = next t.
Proof. destruct t; [contradiction | reflexivity]. Qed.

(** A keyword between two characters that are no word characters is
    matched by its regex. *)
Lemma keywordRegex_matchAt (kw post : string) (prev : option ascii) :
  isWordOpt (next kw) = true -> isWordOpt (lastChar None kw) = true ->
  isWordOpt prev = false -> isWordOpt (next post) = false ->
  matchAt flag_i (keywordRegex kw) prev (kw ++ post) <> None.
Proof.
  intros Hfirst Hlast Hprev Hpost.
  assert (Hne : kw <> EmptyString) by (destruct kw; discriminate).
  unfold matchAt, keywordRegex. cbn [run].
  rewrite (next_app kw post Hne), Hprev, Hfirst. cbn [xorb].
  rewrite (chars_sameText flag_i kw kw) by apply RegexMore.sameText_refl.
  rewrite (lastChar_nonempty prev kw Hne), Hlast, Hpost. discriminate.
Qed.

Lemma blocked_keyword_shape (kw : string) :
  In kw BLOCKED_KEYWORDS ->
  isWordOpt (next kw) = true /\ isWordOpt (lastChar None kw) = true.
Proof.
  unfold BLOCKED_KEYWORDS. cbn [In]. intros H.
  repeat (destruct H as [<- | H]; [split; reflexivity |]). contradiction.
Qed.

(** A query whose normalized text contains a blocked keyword between
    characters that are no word characters (or at its end) is
    rejected. *)
Theorem blocked_keyword_is_rejected (q pre kw post : string) :
  In kw BLOCKED_KEYWORDS ->
  normalizeQuery q = (pre ++ kw ++ post)%string ->
  isWordOpt (lastChar None pre) = false ->
  isWordOpt (next post) = false ->
  valid (validateQuery q) = false.
Proof.
  intros Hin Hn Hpre Hpost.
  destruct (valid (validateQuery q)) eqn:Hv; [exfalso | reflexivity].
  destruct (validateQuery_valid_inv q Hv) as (_ & _ & Hk & _).
  unfold findBlockedKeyword in Hk.
  pose proof (find_none _ _ Hk kw Hin) as Hno. cbv beta in Hno.
  destruct (blocked_keyword_shape kw Hin) as [Hfirst Hlast].
  unfold test in Hno. rewrite Hn in Hno.
  rewrite (RegexMore.searchFrom_app flag_i (keywordRegex kw) pre _ None) in Hno;
    [discriminate |].
  apply keywordRegex_matchAt; assumption.
Qed.

Lemma blocked_keyword_witness :
  valid (validateQuery "select a from t where kill = 1") = false.
Proof.
  apply (blocked_keyword_is_rejected _ "SELECT A FROM T WHERE " "KILL" " = 1").
  - unfold BLOCKED_KEYWORDS. cbn [In]. tauto.
  - vm_compute. reflexivity.
  - reflexivity.
  - reflexivity.
Defined.

Lemma stacked_keyword_shape (kw : string) :
  In kw stackedKeywords ->
  JS.includes kw "SS" = false /\
  exists c rest, kw = String c rest /\ JS.isWhiteSpace c = false.
Proof.
  unfold stackedKeywords. cbn [In]. intros H.
  repeat (destruct H as [<- | H];
          [split; [reflexivity | do 2 eexists; split; reflexivity] |]).
  contradiction.
Qed.

(** The stacked-statement pattern matches a semicolon followed by white
    space and one of its keywords, in any letter case. *)
Lemma stackedQuery_found (pre ws kw word post : string) :
  In kw stackedKeywords -> JS.toUpperCase word = kw ->
  allChars JS.isWhiteSpace ws = true ->
  test flag_i stackedQuery (pre ++ ";" ++ ws ++ word ++ post) = true.
Proof.
  intros Hin Hup Hws. unfold test. apply RegexMore.searchFrom_app.
  destruct (stacked_keyword_shape kw Hin) as (Hkw & c & rest & Ekw & Hc).
  unfold matchAt.
  change stackedQuery
    with (Seq (Chars ";") (Seq (Star space) (anyOf stackedKeywords))).
  cbn [run chars append].
  change (sameChar flag_i ";" ";") with true. cbv iota.
  assert (Hsame : sameText flag_i kw word = true)
    by (apply RegexMore.sameText_upper; [reflexivity | exact Hup | exact Hkw]).
  pose proof (RegexMore.anyOf_match flag_i stackedKeywords kw word post
                (lastChar (Some ";"%char) ws) (1 + String.length ws)
                Hin Hsame) as Hk.
  destruct (run flag_i (anyOf stackedKeywords) accept _ (word ++ post) _)
    as [r |] eqn:Er; [| contradiction].
  rewrite (starGreedy_run space _ ws (word ++ post) (Some ";"%char) 1 r
             Hws Er); [discriminate |].
  destruct word as [| w word]; [subst kw; discriminate |].
  cbn [append]. unfold space.
  destruct (JS.isWhiteSpace w) eqn:Hw; [exfalso | reflexivity].
  subst kw. cbn [JS.toUpperCase] in Ekw.
  rewrite (RegexMore.upperUnits_space w Hw) in Ekw.
  cbn [append] in Ekw. injection Ekw as Ew _. congruence.
Qed.

(** A text in which a semicolon is followed by optional white space and
    INSERT, UPDATE, DELETE, DROP, ALTER, CREATE, TRUNCATE or EXEC, in
    any letter case, is rejected, wherever that stands in the text. *)
Theorem stacked_statement_is_rejected (pre ws kw word post : string) :
  In kw stackedKeywords -> JS.toUpperCase word = kw ->
  allChars JS.isWhiteSpace ws = true ->
  valid (validateQuery (pre ++ ";" ++ ws ++ word ++ post)) = false.
Proof.
  intros Hin Hup Hws.
  destruct (valid (validateQuery _)) eqn:Hv; [exfalso | reflexivity].
  destruct (validateQuery_valid_inv _ Hv) as (_ & _ & _ & Hb & _).
  unfold findBypassPattern, bypassPatterns in Hb. cbn [find fst] in Hb.
  rewrite (stackedQuery_found pre ws kw word post Hin Hup Hws) in Hb.
  discriminate.
Qed.

Lemma stacked_statement_witness :
  valid (validateQuery "SELECT 'a; drop it' AS note") = false.
Proof.
  apply (stacked_statement_is_rejected "SELECT 'a" " " "DROP" "drop"
           " it' AS note").
  - unfold stackedKeywords. cbn [In]. tauto.
  - reflexivity.
  - reflexivity.
Defined.

End ValidatorMore.

(* ================================================================== *)
(** * Stripping comments and the verdict *)
(* ================================================================== *)

Module StrippingFacts.
Import Regex QueryValidator Notions Shapes RegexFacts ValidatorFacts.
Import ValidatorMore.

Local Abbreviation linePass := (replaceFrom flag_gm lineComment "").

Lemma startsWith_split (p s : string) :
  JS.startsWith s p = true -> exists x, s = (p ++ x)%string.
Proof.
  revert s. induction p as [| a p IH]; intros s;
    [intros _; exists s; reflexivity |].
  destruct s as [| c s]; simpl; [discriminate |].
  intros H. apply andb_prop in H. destruct H as [Hc Hs].
  apply Ascii.eqb_eq in Hc. subst c.
  destruct (IH s Hs) as [x ->]. exists x. reflexivity.
Qed.

(** The longest run of a class at the head of a text. *)
Lemma run_split (cls : ascii -> bool) (s : string) :
  exists t s', s = (t ++ s')%string /\ allChars cls t = true /\
    match s' with EmptyString => True | String c _ => cls c = false end.
Proof.
  induction s as [| c s IH].
  - exists EmptyString, EmptyString. auto.
  - destruct (cls c) eqn:Ec.
    + destruct IH as (t & s' & -> & Ht & Hs').
      exists (String c t), s'. cbn [append allChars]. rewrite Ec, Ht. auto.
    + exists EmptyString, (String c s). auto.
Qed.

Lemma includes_suffix (a b p : string) :
  JS.includes (a ++ b) p = false -> JS.includes b p = false.
Proof.
  induction a as [| c a IH]; [trivial |].
  cbn [append]. intros H. apply IH. exact (RegexMore.includes_tail c _ p H).
Qed.

(** No line comment starts where the text does not start with [--]. *)
Lemma lineComment_needs_start (prev : option ascii) (t : string) :
  JS.startsWith t "--" = false -> matchAt flag_gm lineComment prev t = None.
Proof.
  intros H. unfold matchAt, lineComment. cbn [run].
  destruct (chars flag_gm "--" _ prev t 0) eqn:E; [| reflexivity].
  apply chars_startsWith in E; [| reflexivity]. congruence.
Qed.

(** A line comment goes from [--] to the end of its line. *)
Lemma lineComment_matchAt (t s' : string) (prev : option ascii) :
  allChars dot t = true ->
  match s' with EmptyString => True | String c _ => dot c = false end ->
  matchAt flag_gm lineComment prev (("--" ++ t) ++ s') =
  Some (String.length ("--" ++ t)).
Proof.
  intros Ht Hs'. unfold matchAt, lineComment. cbn [run].
  rewrite append_assoc.
  rewrite (chars_sameText flag_gm "--" "--") by reflexivity.
  apply starGreedy_run; [exact Ht | | exact Hs'].
  destruct s' as [| c s'']; cbn [run]; [reflexivity |].
  unfold dot in Hs'. apply negb_false_iff in Hs'. rewrite Hs'. reflexivity.
Qed.

(** One step of the removal of line comments: a character in front of
    which no comment starts is copied; a comment is dropped up to the end
    of its line. *)
Lemma linePass_step (prev : option ascii) (s : string) :
  (JS.startsWith s "--" = false /\
   linePass prev s 0 true =
     match s with
     | EmptyString => EmptyString
     | String c s' => String c (linePass (Some c) s' 0 true)
     end) \/
  (exists t s', s = (("--" ++ t) ++ s')%string /\
     String.length s' < String.length s /\
     linePass prev s 0 true =
       match s' with
       | EmptyString => EmptyString
       | String c s'' => String c (linePass (Some c) s'' 0 true)
       end /\
     match s' with
     | EmptyString => True
     | String c _ => JS.isLineTerminator c = true
     end).
Proof.
  destruct (JS.startsWith s "--") eqn:E.
  - right. destruct (startsWith_split _ _ E) as [x ->].
    destruct (run_split dot x) as (t & s' & -> & Ht & Hs').
    exists t, s'. rewrite <- append_assoc.
    split; [reflexivity |].
    split; [rewrite length_append; cbn [append String.length]; lia |].
    rewrite (replaceFrom_match flag_gm lineComment "" ("--" ++ t) s' prev)
      by (try discriminate; apply lineComment_matchAt; assumption).
    cbn [global flag_gm]. change (("" ++ ?x)%string) with x.
    destruct s' as [| c s'']; [split; reflexivity |].
    unfold dot in Hs'. apply negb_false_iff in Hs'.
    split; [| exact Hs'].
    cbn [replaceFrom].
    rewrite lineComment_needs_start; [reflexivity |].
    revert Hs'. clear. destruct c as [[] [] [] [] [] [] [] []];
      vm_compute; congruence.
  - left. split; [reflexivity |].
    destruct s as [| c s']; cbn [replaceFrom];
      rewrite (lineComment_needs_start prev _ E); reflexivity.
Qed.

(** The first character of the output is the first character of the
    input or a line terminator. *)
Lemma linePass_head (prev : option ascii) (s : string) (c : ascii) :
  next (linePass prev s 0 true) = Some c ->
  (next s = Some c /\ JS.startsWith s "--" = false) \/
  JS.isLineTerminator c = true.
Proof.
  destruct (linePass_step prev s) as [[Hno ->] | (t & s' & -> & _ & -> & Hs')].
  - destruct s as [| c0 s']; cbn [next]; [discriminate |].
    intros H. left. split; assumption.
  - destruct s' as [| c0 s'']; cbn [next]; [discriminate |].
    intros H. injection H as <-. right. exact Hs'.
Qed.

(** A text that starts with [a] and then [b]. *)
Lemma startsWith_two (a b c : ascii) (x : string) :
  JS.startsWith (String c x) (String a (String b EmptyString)) =
  Ascii.eqb a c && match next x with Some c' => Ascii.eqb b c' | None => false end.
Proof.
  cbn [JS.startsWith]. destruct x as [| c' x]; cbn [next]; [reflexivity |].
  rewrite andb_true_r. reflexivity.
Qed.

(** After the removal of line comments no [--] is left. *)
Lemma linePass_no_dashes (n : nat) :
  forall (s : string) (prev : option ascii),
    String.length s <= n -> JS.includes (linePass prev s 0 true) "--" = false.
Proof.
  induction n as [| n IH]; intros s prev Hn.
  - destruct s; [reflexivity | cbn in Hn; lia].
  - destruct (linePass_step prev s)
      as [[Hno ->] | (t & s' & -> & Hlt & -> & Hs')].
    + destruct s as [| c s']; [reflexivity |].
      cbn [String.length] in Hn.
      cbn [JS.includes]. rewrite (IH s' (Some c)) by lia.
      rewrite orb_false_r, startsWith_two.
      destruct (Ascii.eqb_spec "-"%char c) as [<- |]; [| reflexivity].
      cbn [andb].
      destruct (next (linePass (Some "-"%char) s' 0 true)) as [c' |] eqn:E;
        [| reflexivity].
      destruct (Ascii.eqb_spec "-"%char c') as [<- |]; [exfalso | reflexivity].
      destruct (linePass_head _ _ _ E) as [[Hs' _] | Ht]; [| discriminate].
      rewrite startsWith_two, Hs', Ascii.eqb_refl in Hno. discriminate.
    + destruct s' as [| c s'']; [reflexivity |].
      cbn [String.length] in Hlt.
      cbn [JS.includes]. rewrite (IH s'' (Some c)) by lia.
      rewrite orb_false_r, startsWith_two.
      destruct (Ascii.eqb_spec "-"%char c) as [<- |]; [discriminate |].
      reflexivity.
Qed.

(** The removal of line comments brings no [/*] into a text. *)
Lemma linePass_no_opener (n : nat) :
  forall (s : string) (prev : option ascii),
    String.length s <= n -> JS.includes s "/*" = false ->
    JS.includes (linePass prev s 0 true) "/*" = false.
Proof.
  induction n as [| n IH]; intros s prev Hn Hs.
  - destruct s; [reflexivity | cbn in Hn; lia].
  - destruct (linePass_step prev s)
      as [[Hno ->] | (t & s' & -> & Hlt & -> & Hs')].
    + destruct s as [| c s']; [reflexivity |].
      cbn [String.length] in Hn.
      cbn [JS.includes] in Hs. apply orb_false_elim in Hs.
      destruct Hs as [Hhead Htail].
      cbn [JS.includes]. rewrite (IH s' (Some c)) by (try lia; exact Htail).
      rewrite orb_false_r, startsWith_two.
      destruct (Ascii.eqb_spec "/"%char c) as [<- |]; [| reflexivity].
      cbn [andb].
      destruct (next (linePass (Some "/"%char) s' 0 true)) as [c' |] eqn:E;
        [| reflexivity].
      destruct (Ascii.eqb_spec "*"%char c') as [<- |]; [exfalso | reflexivity].
      destruct (linePass_head _ _ _ E) as [[Hs' _] | Ht]; [| discriminate].
      rewrite startsWith_two, Hs', !Ascii.eqb_refl in Hhead. discriminate.
    + apply includes_suffix in Hs.
      destruct s' as [| c s'']; [reflexivity |].
      cbn [String.length] in Hlt.
      cbn [JS.includes] in Hs. apply orb_false_elim in Hs.
      destruct Hs as [_ Htail].
      cbn [JS.includes]. rewrite (IH s'' (Some c)) by (try lia; exact Htail).
      rewrite orb_false_r, startsWith_two.
      destruct (Ascii.eqb_spec "/"%char c) as [<- |]; [discriminate |].
      reflexivity.
Qed.

(** The comments of a query without [/*] are gone after one removal:
    the stripped text has no [--] and no [/*], and removing comments
    again changes nothing. *)
Lemma removeComments_stable (Q : string) :
  JS.includes Q "/*" = false ->
  removeComments (removeComments Q) = removeComments Q.
Proof.
  intros Hb.
  pose proof (linePass_no_dashes _ Q None (Nat.le_refl _)) as HA.
  pose proof (linePass_no_opener _ Q None (Nat.le_refl _) Hb) as HB.
  assert (E : removeComments Q = linePass None Q 0 true).
  { unfold removeComments, replace.
    apply (RegexMore.replaceFrom_closed flag_g blockComment ""
             (fun t => negb (JS.includes t "/*"))
             blockComment_needs_opener (not_includes_tail "/*")).
    rewrite HB. reflexivity. }
  rewrite E. rewrite (removeComments_no_opener _ HA HB). reflexivity.
Qed.

(** The verdict of a query that one of the text checks rejects is a
    function of the normalized text. *)
Lemma decidedByText_verdict (Q1 Q2 : string) :
  normalizeQuery Q1 = normalizeQuery Q2 ->
  decidedByText Q2 = true ->
  validateQuery Q1 = validateQuery Q2.
Proof.
  unfold decidedByText, validateQuery. intros ->.
  destruct (JS.truthy (normalizeQuery Q2)); cbn [negb orb]; [| reflexivity].
  destruct (startsWithAllowed (normalizeQuery Q2)); cbn [negb orb];
    [| reflexivity].
  destruct (findBlockedKeyword (normalizeQuery Q2)); [reflexivity |].
  discriminate.
Qed.

(** C2, amended.  For a query [Q] without [/*], and for every query on
    which removing the comments once more changes nothing, the
    normalized text that the empty check, the leading-keyword check and
    the blocked-keyword scan read is the same for [Q] and for the
    stripped text, and [validateQuery] returns the same verdict on both
    whenever one of these three checks rejects [Q] or the bypass scan
    answers the same on [Q] and on the stripped text. *)
Theorem C2_same_verdict_on_stripped_text (Q : string) :
  JS.includes Q "/*" = false \/
    removeComments (removeComments Q) = removeComments Q ->
  normalizeQuery (removeComments Q) = normalizeQuery Q /\
  (decidedByText Q = true \/
     findBypassPattern (removeComments Q) = findBypassPattern Q ->
   validateQuery (removeComments Q) = validateQuery Q).
Proof.
  intros H.
  assert (Hstable : removeComments (removeComments Q) = removeComments Q)
    by (destruct H as [H | H]; [exact (removeComments_stable Q H) | exact H]).
  assert (Hn : normalizeQuery (removeComments Q) = normalizeQuery Q)
    by (unfold normalizeQuery; rewrite Hstable; reflexivity).
  split; [exact Hn |].
  intros [Hd | Hscan].
  - exact (decidedByText_verdict _ _ Hn Hd).
  - exact (validateQuery_ext _ _ Hn Hscan).
Qed.

(** The amended C2 on the query of the spec whose comment ends a line in
    front of a DELETE: both verdicts are the rejection of DELETE, though
    the bypass scan answers differently on the two texts. *)
Lemma C2_same_verdict_witness :
  let Q := "SELECT 1; -- " ++ nl ++ "DELETE FROM x" in
  (normalizeQuery (removeComments Q) = normalizeQuery Q /\
   (decidedByText Q = true \/
      findBypassPattern (removeComments Q) = findBypassPattern Q ->
    validateQuery (removeComments Q) = validateQuery Q)) /\
  queryType (validateQuery Q) = Some "DELETE" /\
  findBypassPattern Q = None /\
  findBypassPattern (removeComments Q)
    = Some "Stacked query with write operation".
Proof.
  split; [| vm_compute; repeat split].
  apply (C2_same_verdict_on_stripped_text
           ("SELECT 1; -- " ++ nl ++ "DELETE FROM x")).
  left. vm_compute. reflexivity.
Defined.

End StrippingFacts.

(* ================================================================== *)
(** * Further properties of the execution pipeline *)
(* ================================================================== *)

Module ExecuteMore.
Import QueryValidator Errors Execute Notions Shapes RegexFacts ValidatorFacts
       ExecuteFacts.

Local Open Scope Z_scope.

(** ** The gate in front of the driver *)

(** A rejecting verdict has a reason that is not the empty text. *)
Lemma rejected_has_reason (q : string) :
  valid (validateQuery q) = false ->
  exists r, reason (validateQuery q) = Some r /\ JS.truthy r = true.
Proof.
  unfold validateQuery.
  destruct (JS.truthy (normalizeQuery q)); cbn [negb];
    [| intros _; eexists; split; reflexivity].
  destruct (startsWithAllowed (normalizeQuery q)); cbn [negb];
    [| intros _; eexists; split; reflexivity].
  destruct (findBlockedKeyword (normalizeQuery q));
    [intros _; eexists; split; reflexivity |].
  destruct (findBypassPattern q); [| discriminate].
  intros _; eexists; split; reflexivity.
Qed.

(** A run of [executeQuery] that stops at the validator. *)
Lemma executeQuery_refused_run
      (d : driver) (query : string) (params : record value)
      (maxRows : number) (w : world) (r : string) :
  valid (validateQuery query) = false ->
  reason (validateQuery query) = Some r ->
  JS.truthy r = true ->
  executeQuery true d query params maxRows w =
    (mkWorld (clock w) (CallValidateQuery query :: trace w),
     inl (Mcp (QueryValidationError r None))).
Proof.
  intros Hv Hr Ht.
  unfold executeQuery. unfold bind at 1. cbn [dateNow].
  unfold bind at 1. unfold bind at 1. cbn [emit].
  rewrite Hv, Hr. cbn [negb throw orElse]. rewrite Ht. reflexivity.
Qed.

(** In read-only mode a query the validator rejects is not run:
    [executeQuery] throws [QueryValidationError] with the reason of the
    verdict, and the only call it has made is the one to the
    validator. *)
Theorem executeQuery_rejected_query_is_not_run
        (d : driver) (query : string) (params : record value)
        (maxRows : number) (w : world) :
  valid (validateQuery query) = false ->
  exists r,
    reason (validateQuery query) = Some r /\
    executeQuery true d query params maxRows w =
      (mkWorld (clock w) (CallValidateQuery query :: trace w),
       inl (Mcp (QueryValidationError r None))).
Proof.
  intros Hv. destruct (rejected_has_reason query Hv) as (r & Hr & Ht).
  exists r. split; [exact Hr |].
  exact (executeQuery_refused_run d query params maxRows w r Hv Hr Ht).
Qed.

Lemma executeQuery_rejected_witness :
  exists r,
    reason (validateQuery "DROP TABLE users") = Some r /\
    executeQuery true tenRows "DROP TABLE users" [] (ofZ 10) (mkWorld 0 []) =
      (mkWorld 0 [CallValidateQuery "DROP TABLE users"],
       inl (Mcp (QueryValidationError r None))).
Proof.
  apply (executeQuery_rejected_query_is_not_run tenRows "DROP TABLE users" []
           (ofZ 10) (mkWorld 0 [])).
  vm_compute. reflexivity.
Defined.

(** ** Failure to get a pool *)

(** A run of [executeQuery] that gets no pool. *)
Lemma executeQuery_no_pool_run
        (READONLY : bool) (d : driver) (query : string)
        (params : record value) (maxRows : number) (w : world)
        (failure : string) :
  (READONLY = false \/ valid (validateQuery query) = true) ->
  connect d = Some failure ->
  let message := ("Failed to connect to SQL Server: " ++ failure)%string in
  executeQuery READONLY d query params maxRows w =
    (mkWorld (clock w + connectTime d)
       (CallLogger "error" "Query execution failed"
          [ ("error", VString message);
            ("duration", num (connectTime d));
            ("query", VString (JS.take 200 query)) ]
        :: CallGetPool
        :: (if READONLY then CallValidateQuery query :: trace w else trace w)),
     inl (if JS.includes message "timeout" || JS.includes message "Timeout"
          then Mcp (TimeoutError (connectTime d))
          else Mcp (ConnectionError message))).
Proof.
  intros Hgate Hpool. cbv zeta.
  unfold executeQuery. unfold bind at 1. cbn [dateNow].
  unfold bind at 1.
  assert (Hpre :
    (if READONLY
     then emit (CallValidateQuery query);;;
          (if negb (valid (validateQuery query))
           then throw (Mcp (QueryValidationError
                   (orElse (reason (validateQuery query)) "Query validation failed")
                   None))
           else ret tt)
     else ret tt) w =
    (mkWorld (clock w)
       (if READONLY then CallValidateQuery query :: trace w else trace w), inr tt)).
  { destruct READONLY.
    - destruct Hgate as [Hf | Hv]; [discriminate |].
      unfold bind, emit. rewrite Hv. reflexivity.
    - destruct w; reflexivity. }
  rewrite Hpre. clear Hpre.
  unfold tryCatch, getPool. rewrite Hpool.
  unfold bind at 1. unfold bind at 1. cbn [emit clock trace].
  unfold bind at 1. cbn [elapse throw clock trace].
  unfold bind at 1. cbn [dateNow clock].
  unfold bind at 1. cbn [emit clock trace getErrorMessage mcpMessage].
  rewrite Z.add_simpl_l.
  destruct (JS.includes _ "timeout" || JS.includes _ "Timeout"); reflexivity.
Qed.

(** When [getPool] fails, [executeQuery] binds no parameter and sends
    no statement.  The duration it logs is the time the connection
    attempt took; it throws the [ConnectionError], or a [TimeoutError]
    with that duration when the message of the failure mentions a
    timeout. *)
Theorem executeQuery_without_pool
        (READONLY : bool) (d : driver) (query : string)
        (params : record value) (maxRows : number) (w : world)
        (failure : string) :
  (READONLY = false \/ valid (validateQuery query) = true) ->
  connect d = Some failure ->
  let message := ("Failed to connect to SQL Server: " ++ failure)%string in
  executeQuery READONLY d query params maxRows w =
    (mkWorld (clock w + connectTime d)
       (CallLogger "error" "Query execution failed"
          [ ("error", VString message);
            ("duration", num (connectTime d));
            ("query", VString (JS.take 200 query)) ]
        :: CallGetPool
        :: (if READONLY then CallValidateQuery query :: trace w else trace w)),
     inl (if JS.includes message "timeout" || JS.includes message "Timeout"
          then Mcp (TimeoutError (connectTime d))
          else Mcp (ConnectionError message))).
Proof.
  exact (executeQuery_no_pool_run READONLY d query params maxRows w failure).
Qed.

Lemma executeQuery_without_pool_witness :
  executeQuery true unreachable "SELECT 1" [] (ofZ 10) (mkWorld 1000 []) =
  (mkWorld 16000
     [ CallLogger "error" "Query execution failed"
         [ ("error", VString "Failed to connect to SQL Server: Connection timeout");
           ("duration", num 15000);
           ("query", VString "SELECT 1") ];
       CallGetPool; CallValidateQuery "SELECT 1" ],
   inl (Mcp (TimeoutError 15000))).
Proof.
  rewrite (executeQuery_without_pool true unreachable "SELECT 1" [] (ofZ 10)
             (mkWorld 1000 []) "Connection timeout");
    [reflexivity | right; vm_compute; reflexivity | reflexivity].
Defined.

(** ** [executeScalar] *)

(** [executeScalar] asks for one row and returns the first field of the
    first row of the answer, [null] when the answer has no row or its
    first row no field. *)
Theorem executeScalar_first_field
        (READONLY : bool) (d : driver) (query : string)
        (params : record value) (w : world) (dt : Z) (result : driverResult) :
  (READONLY = false \/ valid (validateQuery query) = true) ->
  connect d = None ->
  answer d query (inputsOf params) = (dt, inr result) ->
  executeScalar READONLY d query params w =
    (fst (executeQuery READONLY d query params (ofZ 1) w),
     inr (firstValue (rowsOf result))).
Proof.
  intros Hgate Hpool Hans. unfold executeScalar, bind.
  rewrite (executeQuery_run READONLY d query params _ w Hgate Hpool).
  rewrite Hans. cbn [fst snd]. cbv zeta. cbn [rows].
  change (ofZ 1) with (ofZ (Z.of_nat 1)).
  rewrite (slice0_count (rowsOf result) 1).
  destruct (rowsOf result) as [| [| [k v] fields] rest]; cbn [firstn keys map];
    try reflexivity.
  cbn [fst getProperty firstValue ret]. rewrite String.eqb_refl. reflexivity.
Qed.

Lemma executeScalar_witness :
  snd (executeScalar true tenRows "SELECT n FROM t" [] (mkWorld 0 [])) =
  inr (num 1).
Proof.
  rewrite (executeScalar_first_field true tenRows "SELECT n FROM t" []
             (mkWorld 0 []) 5
             (mkDriverResult
                (Some (mkRecordset
                         (map (fun i => [("n", num i)])
                              [1; 2; 3; 4; 5; 6; 7; 8; 9; 10])
                         None))
                []));
    [reflexivity | right; vm_compute; reflexivity | reflexivity | reflexivity].
Defined.

(** ** [executeWrite] outside read-only mode *)

(** A run of [executeWrite] that gets a pool. *)
Lemma executeWrite_run (d : driver) (query : string) (params : record value)
      (w : world) :
  connect d = None ->
  executeWrite false d query params w =
  let dt := fst (answer d query (inputsOf params)) in
  let calls := callsBeforeAnswer false query params w in
  match snd (answer d query (inputsOf params)) with
  | inr result =>
      let affected := hd 0 (rowsAffected result) in
      (mkWorld (clock w + dt)
         (CallLogger "info" "Write operation executed"
            [ ("affectedRows", num affected);
              ("duration", num (clock w + dt - clock w)) ] :: calls),
       inr (mkWriteResult affected (clock w + dt - clock w)))
  | inl error =>
      (mkWorld (clock w + dt)
         (CallLogger "error" "Write operation failed"
            [ ("error", VString (getErrorMessage error));
              ("duration", num (clock w + dt - clock w));
              ("query", VString (JS.take 200 query)) ] :: calls),
       inl error)
  end.
Proof.
  intros Hpool. unfold executeWrite, callsBeforeAnswer.
  unfold bind at 1. cbn [dateNow].
  unfold tryCatch, getPool. rewrite Hpool.
  unfold bind at 1. unfold bind at 1. cbn [emit ret clock trace].
  unfold bind at 1. cbn [emit clock trace].
  unfold bind at 1. rewrite addParameters_run. cbn [clock trace].
  unfold bind at 1. unfold requestQuery.
  destruct (answer d query (inputsOf params)) as [dt outcome].
  cbn [fst snd].
  unfold bind at 1. cbn [emit clock trace].
  unfold bind at 1. cbn [elapse clock trace].
  destruct outcome as [error | result].
  - cbn [throw]. unfold bind at 1. cbn [dateNow clock].
    unfold bind at 1. cbn [emit clock trace]. reflexivity.
  - cbn [ret]. unfold bind at 1. cbn [dateNow clock].
    unfold bind at 1. cbn [emit clock trace ret]. reflexivity.
Qed.

(** Outside read-only mode [executeWrite] sends the statement once,
    unchanged, with every parameter bound under its name with the type
    [getSqlType] gives, in the order of the map; it returns the first
    count of [rowsAffected], 0 when there is none. *)
Theorem executeWrite_dispatch
        (d : driver) (query : string) (params : record value) (w : world)
        (dt : Z) (result : driverResult) :
  connect d = None ->
  answer d query (inputsOf params) = (dt, inr result) ->
  exists w' r,
    executeWrite false d query params w = (w', inr r) /\
    affectedRows r = hd 0 (rowsAffected result) /\
    tl (trace w') =
      (CallQuery query :: rev (inputCalls params)
         ++ CallRequest :: CallGetPool :: trace w)%list.
Proof.
  intros Hpool Hans. rewrite (executeWrite_run d query params w Hpool).
  rewrite Hans. cbn [fst snd]. cbv zeta.
  do 2 eexists. split; [reflexivity |]. split; reflexivity.
Qed.

Lemma executeWrite_dispatch_witness :
  exists w' r,
    executeWrite false tenRows "DELETE FROM t WHERE id = @id" [("id", num 7)]
                 (mkWorld 0 []) = (w', inr r) /\
    affectedRows r = 0 /\
    tl (trace w') =
      [ CallQuery "DELETE FROM t WHERE id = @id";
        CallInput "id" BigInt (num 7); CallRequest; CallGetPool ].
Proof.
  apply (executeWrite_dispatch tenRows "DELETE FROM t WHERE id = @id"
           [("id", num 7)] (mkWorld 0 []) 5
           (mkDriverResult
              (Some (mkRecordset
                       (map (fun i => [("n", num i)])
                            [1; 2; 3; 4; 5; 6; 7; 8; 9; 10])
                       None))
              [])); reflexivity.
Defined.

(** A failure of the driver leaves [executeWrite] as the error the
    driver threw, also when its message mentions a timeout; the message
    that is logged is the one [getErrorMessage] gives. *)
Theorem executeWrite_rethrows
        (d : driver) (query : string) (params : record value) (w : world)
        (dt : Z) (error : thrown) :
  connect d = None ->
  answer d query (inputsOf params) = (dt, inl error) ->
  snd (executeWrite false d query params w) = inl error /\
  hd_error (trace (fst (executeWrite false d query params w))) =
    Some (CallLogger "error" "Write operation failed"
            [ ("error", VString (getErrorMessage error));
              ("duration", num (clock w + dt - clock w));
              ("query", VString (JS.take 200 query)) ]).
Proof.
  intros Hpool Hans. rewrite (executeWrite_run d query params w Hpool).
  rewrite Hans. cbn [fst snd]. split; reflexivity.
Qed.

Lemma executeWrite_rethrows_witness :
  snd (executeWrite false
         (mkDriver None (fun _ _ => (30000, inl (PlainError "Timeout: Request failed to complete in 30000ms"))))
         "UPDATE t SET a = 1" [] (mkWorld 0 [])) =
  inl (PlainError "Timeout: Request failed to complete in 30000ms").
Proof.
  exact (proj1 (executeWrite_rethrows
                  (mkDriver None (fun _ _ => (30000, inl (PlainError "Timeout: Request failed to complete in 30000ms"))))
                  "UPDATE t SET a = 1" [] (mkWorld 0 []) 30000 _
                  eq_refl eq_refl)).
Defined.

End ExecuteMore.

(* ================================================================== *)
(** * Further properties of the statement builders *)
(* ================================================================== *)

Module BuilderFacts.
Import Regex QueryValidator Errors Execute Notions Shapes RegexFacts
       ValidatorFacts ValidatorMore.

(** ** Objects *)

Lemma getProperty_app {T : Type} (a b : record T) (key : string) :
  getProperty (a ++ b)%list key =
  match getProperty a key with
  | Some v => Some v
  | None => getProperty b key
  end.
Proof.
  induction a as [| [k v] a IH]; [reflexivity |].
  cbn [app getProperty]. destruct (String.eqb k key); [reflexivity | exact IH].
Qed.

Lemma getProperty_setProperty {T : Type} (r : record T) (k key : string)
      (v : T) :
  getProperty (setProperty r k v) key =
  if String.eqb k key then Some v else getProperty r key.
Proof.
  induction r as [| [k' v'] r IH]; cbn [setProperty getProperty].
  - destruct (String.eqb k key); reflexivity.
  - destruct (String.eqb_spec k' k) as [-> | Hne]; cbn [getProperty].
    + destruct (String.eqb k key); reflexivity.
    + destruct (String.eqb_spec k' key) as [-> | Hne'].
      * destruct (String.eqb_spec k key) as [-> | _]; [contradiction |].
        reflexivity.
      * exact IH.
Qed.

(** After the properties of [l] have been set one after the other, a
    key has the value [l] gave it last. *)
Lemma getProperty_fold {T : Type} (l r0 : record T) (key : string) :
  getProperty
    (fold_left (fun target kv => setProperty target (fst kv) (snd kv)) l r0)
    key =
  match getProperty (rev l) key with
  | Some v => Some v
  | None => getProperty r0 key
  end.
Proof.
  revert r0. induction l as [| [k v] l IH]; intros r0; [reflexivity |].
  cbn [fold_left fst snd rev]. rewrite IH, getProperty_app.
  destruct (getProperty (rev l) key); [reflexivity |].
  rewrite getProperty_setProperty. cbn [getProperty].
  destruct (String.eqb k key); reflexivity.
Qed.

Lemma getProperty_In {T : Type} (r : record T) (key : string) (v : T) :
  NoDup (keys r) -> (getProperty r key = Some v <-> In (key, v) r).
Proof.
  induction r as [| [k v'] r IH]; cbn [keys map fst getProperty In].
  - intros _. split; [discriminate | contradiction].
  - intros Hnd. inversion Hnd as [| ? ? Hnotin Hnd']. subst.
    destruct (String.eqb_spec k key) as [-> | Hne].
    + split.
      * intros H. injection H as ->. left. reflexivity.
      * intros [H | H]; [injection H as ->; reflexivity |].
        exfalso. apply Hnotin. apply (in_map fst) in H. exact H.
    + rewrite (IH Hnd'). split; [auto |].
      intros [H | H]; [injection H as -> _; contradiction | exact H].
Qed.

Lemma getProperty_None {T : Type} (r : record T) (key : string) :
  getProperty r key = None <-> ~ In key (keys r).
Proof.
  induction r as [| [k v] r IH]; cbn [keys map fst getProperty In].
  - tauto.
  - destruct (String.eqb_spec k key) as [-> | Hne].
    + split; [discriminate | intros H; exfalso; apply H; auto].
    + rewrite IH. unfold keys. tauto.
Qed.

(** In an object, whose keys are all different, the order of the
    properties does not matter for what a key holds. *)
Lemma getProperty_rev {T : Type} (r : record T) (key : string) :
  NoDup (keys r) -> getProperty (rev r) key = getProperty r key.
Proof.
  intros Hnd.
  assert (Hnd' : NoDup (keys (rev r))).
  { unfold keys. rewrite map_rev. apply NoDup_rev. exact Hnd. }
  destruct (getProperty r key) as [v |] eqn:E.
  - apply (getProperty_In _ _ _ Hnd'). apply in_rev. rewrite rev_involutive.
    apply (getProperty_In _ _ _ Hnd). exact E.
  - apply getProperty_None. apply getProperty_None in E.
    unfold keys in *. rewrite map_rev, <- in_rev. exact E.
Qed.

Lemma insertByIndex_tagged {T : Type} (n : N) (kv : string * T)
      (l : list (N * (string * T))) :
  arrayIndex (fst kv) = Some n -> tagged l -> tagged (insertByIndex n kv l).
Proof.
  intros Hkv. induction l as [| [m e] l IH]; intros Hl.
  - constructor; [exact Hkv | constructor].
  - cbn [insertByIndex]. destruct (n <=? m)%N.
    + constructor; [exact Hkv | exact Hl].
    + inversion Hl; subst. constructor; [assumption | apply IH; assumption].
Qed.

Lemma indexedProperties_tagged {T : Type} (r : record T) :
  tagged (indexedProperties r).
Proof.
  induction r as [| kv r IH]; [constructor |].
  cbn [indexedProperties]. destruct (arrayIndex (fst kv)) eqn:E; [| exact IH].
  apply insertByIndex_tagged; assumption.
Qed.

Lemma getProperty_insertByIndex {T : Type} (n : N) (k : string) (v : T)
      (l : list (N * (string * T))) (key : string) :
  arrayIndex k = Some n -> tagged l ->
  getProperty (map snd (insertByIndex n (k, v) l)) key =
  if String.eqb k key then Some v else getProperty (map snd l) key.
Proof.
  intros Hk. induction l as [| [m [k' v']] l IH]; intros Hl; [reflexivity |].
  cbn [insertByIndex]. destruct (N.leb_spec n m) as [Hle | Hlt].
  - reflexivity.
  - inversion Hl as [| ? ? Htag Hl']; subst. cbn [fst snd] in Htag.
    cbn [map snd getProperty]. rewrite (IH Hl').
    destruct (String.eqb_spec k' key) as [-> | Hne]; [| reflexivity].
    destruct (String.eqb_spec k key) as [-> | _]; [| reflexivity].
    rewrite Hk in Htag. injection Htag as ->. lia.
Qed.

Lemma getProperty_indexed {T : Type} (r : record T) (key : string) :
  getProperty (map snd (indexedProperties r)) key =
  match arrayIndex key with
  | Some _ => getProperty r key
  | None => None
  end.
Proof.
  induction r as [| [k v] r IH]; cbn [indexedProperties fst getProperty].
  - destruct (arrayIndex key); reflexivity.
  - destruct (arrayIndex k) as [n |] eqn:Ek.
    + rewrite (getProperty_insertByIndex n k v _ key Ek
                 (indexedProperties_tagged r)).
      destruct (String.eqb_spec k key) as [<- | Hne]; [| exact IH].
      rewrite Ek. reflexivity.
    + rewrite IH. destruct (String.eqb_spec k key) as [<- | Hne];
        [rewrite Ek |]; reflexivity.
Qed.

Lemma getProperty_others {T : Type} (r : record T) (key : string) :
  getProperty
    (filter (fun kv => match arrayIndex (fst kv) with
                       | Some _ => false | None => true end) r) key =
  match arrayIndex key with
  | Some _ => None
  | None => getProperty r key
  end.
Proof.
  induction r as [| [k v] r IH]; cbn [filter fst getProperty].
  - destruct (arrayIndex key); reflexivity.
  - destruct (arrayIndex k) eqn:Ek; cbn [getProperty].
    + rewrite IH. destruct (String.eqb_spec k key) as [<- | Hne];
        [rewrite Ek |]; reflexivity.
    + destruct (String.eqb_spec k key) as [<- | Hne]; [| exact IH].
      rewrite Ek. reflexivity.
Qed.

(** The order of enumeration does not change what a key holds. *)
Lemma getProperty_ownProperties {T : Type} (r : record T) (key : string) :
  getProperty (ownProperties r) key = getProperty r key.
Proof.
  unfold ownProperties.
  rewrite getProperty_app, getProperty_indexed, getProperty_others.
  destruct (arrayIndex key); [| reflexivity].
  destruct (getProperty r key); reflexivity.
Qed.

(** [{ ...a, ...b }] holds for every key the value of [b] when [b] has
    the key, and the value of [a] otherwise. *)
Lemma getProperty_spread {T : Type} (a b : record T) (key : string) :
  NoDup (keys a) -> NoDup (keys b) ->
  getProperty (spread a b) key =
  match getProperty b key with
  | Some v => Some v
  | None => getProperty a key
  end.
Proof.
  intros Ha Hb. unfold spread.
  rewrite getProperty_ownProperties, getProperty_fold, rev_app_distr.
  rewrite getProperty_app, (getProperty_rev b key Hb), (getProperty_rev a key Ha).
  destruct (getProperty b key); [reflexivity |].
  destruct (getProperty a key); reflexivity.
Qed.

(** The parameters of [buildUpdateQuery] hold, under every name, the
    WHERE parameter of that name when there is one and the column value
    otherwise: where a column and a WHERE parameter share a name, the
    column value is dropped. *)
Theorem buildUpdateQuery_params
        (schema table : string) (data : record value) (whereClause : string)
        (whereParams : record value) (name : string) :
  NoDup (keys data) -> NoDup (keys whereParams) ->
  getProperty (snd (buildUpdateQuery schema table data whereClause whereParams))
              name =
  match getProperty whereParams name with
  | Some v => Some v
  | None => getProperty data name
  end.
Proof.
  intros Hd Hw. cbn [buildUpdateQuery snd]. apply getProperty_spread; assumption.
Qed.

Lemma buildUpdateQuery_params_witness :
  getProperty
    (snd (buildUpdateQuery "dbo" "users" [("id", num 5); ("name", VString "x")]
            "id = @id" [("id", num 1)])) "id" = Some (num 1).
Proof.
  rewrite (buildUpdateQuery_params "dbo" "users"
             [("id", num 5); ("name", VString "x")] "id = @id" [("id", num 1)]
             "id").
  - reflexivity.
  - repeat constructor; cbn [In]; intuition discriminate.
  - repeat constructor; cbn [In]; intuition discriminate.
Defined.

(** ** What the statement text contains *)

Lemma startsWith_app (p s : string) : JS.startsWith (p ++ s) p = true.
Proof.
  induction p as [| a p IH]; [reflexivity |].
  cbn [append JS.startsWith]. rewrite Ascii.eqb_refl. exact IH.
Qed.

Lemma startsWith_app_l (s t p : string) :
  JS.startsWith s p = true -> JS.startsWith (s ++ t) p = true.
Proof.
  revert s. induction p as [| a p IH]; intros s; [reflexivity |].
  destruct s as [| c s]; cbn [append JS.startsWith]; [discriminate |].
  intros H. apply andb_prop in H. destruct H as [Hc H].
  rewrite Hc. exact (IH s H).
Qed.

Lemma includes_app_l (s t p : string) :
  JS.includes s p = true -> JS.includes (s ++ t) p = true.
Proof.
  induction s as [| c s IH].
  - cbn [JS.includes append]. rewrite orb_false_r. intros H.
    destruct p; [| discriminate]. destruct t; reflexivity.
  - cbn [JS.includes append]. intros H. apply orb_prop in H.
    destruct H as [H | H].
    + pose proof (startsWith_app_l (String c s) t p H) as Hs.
      cbn [append] in Hs. rewrite Hs. reflexivity.
    + rewrite (IH H). apply orb_true_r.
Qed.

Lemma includes_app_r (s t p : string) :
  JS.includes t p = true -> JS.includes (s ++ t) p = true.
Proof.
  intros H. induction s as [| c s IH]; [exact H |].
  cbn [JS.includes append]. rewrite IH. apply orb_true_r.
Qed.

Lemma includes_self (p t : string) : JS.includes (p ++ t) p = true.
Proof.
  destruct (p ++ t)%string eqn:E; cbn [JS.includes]; rewrite <- E;
    rewrite startsWith_app; reflexivity.
Qed.

Lemma includes_refl (p : string) : JS.includes p p = true.
Proof.
  pose proof (includes_self p "") as H. rewrite append_empty_r in H. exact H.
Qed.

(** A text found in a part of the statement is found in the statement. *)
Lemma includes_context (pre mid post p : string) :
  JS.includes mid p = true -> JS.includes (pre ++ mid ++ post) p = true.
Proof.
  intros H. apply includes_app_r, includes_app_l. exact H.
Qed.

Lemma join_member (sep x : string) (xs : list string) :
  In x xs -> JS.includes (JS.join sep xs) x = true.
Proof.
  induction xs as [| y xs IH]; [contradiction |].
  destruct xs as [| z xs].
  - intros [-> | []]. cbn [JS.join]. apply includes_refl.
  - change (JS.join sep (y :: z :: xs))
      with (y ++ sep ++ JS.join sep (z :: xs))%string.
    intros [-> | H]; [apply includes_self |].
    apply includes_app_r, includes_app_r. exact (IH H).
Qed.

(** Between brackets, every joined name stands between its own. *)
Lemma bracket_member (col : string) (cols : list string) :
  In col cols ->
  JS.includes ("[" ++ JS.join "], [" cols ++ "]") ("[" ++ col ++ "]") = true.
Proof.
  induction cols as [| y cols IH]; [contradiction |].
  destruct cols as [| z cols].
  - intros [-> | []]. cbn [JS.join]. apply includes_refl.
  - change (JS.join "], [" (y :: z :: cols))
      with (y ++ "], [" ++ JS.join "], [" (z :: cols))%string.
    intros [-> | H].
    + rewrite !append_assoc.
      change ("[" ++ col ++ "], [" ++ ?x)%string
        with ("[" ++ col ++ "]" ++ (", [" ++ x))%string.
      rewrite <- (append_assoc col), <- (append_assoc "[").
      apply includes_self.
    + rewrite !append_assoc.
      change ("[" ++ y ++ "], [" ++ ?x)%string
        with ("[" ++ y ++ "], " ++ ("[" ++ x))%string.
      rewrite <- (append_assoc y), <- (append_assoc "[").
      apply includes_app_r. rewrite <- append_assoc. exact (IH H).
Qed.

Lemma buildInsertQuery_text (schema table : string) (data : record value) :
  fst (buildInsertQuery schema table data) =
  ((nl ++ "    INSERT INTO [" ++ schema ++ "].[" ++ table ++ "] (")
     ++ ("[" ++ JS.join "], [" (keys data) ++ "]")
     ++ (")" ++ nl ++ "    VALUES ("))
    ++ JS.join ", " (map (fun col => "@" ++ col) (keys data))
    ++ (");" ++ nl ++ "    SELECT SCOPE_IDENTITY() AS insertedId;" ++ nl
            ++ "  ").
Proof. cbn [buildInsertQuery fst]. rewrite !append_assoc. reflexivity. Qed.

(** Every column of the map has its bracketed name and its placeholder
    in the text of [buildInsertQuery], and the value for the
    placeholder in the parameters. *)
Theorem buildInsertQuery_placeholders
        (schema table : string) (data : record value) (col : string) :
  In col (keys data) ->
  JS.includes (fst (buildInsertQuery schema table data))
              ("[" ++ col ++ "]") = true /\
  JS.includes (fst (buildInsertQuery schema table data)) ("@" ++ col) = true /\
  exists v, In (col, v) (snd (buildInsertQuery schema table data)).
Proof.
  intros Hin. rewrite buildInsertQuery_text. split; [| split].
  - apply includes_app_l, includes_context, bracket_member. exact Hin.
  - apply includes_context, join_member.
    exact (in_map (fun c => "@" ++ c)%string _ _ Hin).
  - unfold keys in Hin. apply in_map_iff in Hin.
    destruct Hin as ([k v] & Hk & Hin). cbn [fst] in Hk. subst k.
    exists v. exact Hin.
Qed.

Lemma buildInsertQuery_placeholders_witness :
  JS.includes
    (fst (buildInsertQuery "dbo" "users" [("name", VNull); ("age", num 3)]))
    "[age]" = true /\
  JS.includes
    (fst (buildInsertQuery "dbo" "users" [("name", VNull); ("age", num 3)]))
    "@age" = true /\
  exists v, In ("age", v)
    (snd (buildInsertQuery "dbo" "users" [("name", VNull); ("age", num 3)])).
Proof.
  apply (buildInsertQuery_placeholders "dbo" "users"
           [("name", VNull); ("age", num 3)] "age").
  right. left. reflexivity.
Defined.

Lemma buildUpdateQuery_text (schema table : string) (data : record value)
      (whereClause : string) (whereParams : record value) :
  fst (buildUpdateQuery schema table data whereClause whereParams) =
  ((nl ++ "    UPDATE [" ++ schema ++ "].[" ++ table ++ "]" ++ nl
       ++ "    SET "
       ++ JS.join ", " (map (fun col => "[" ++ col ++ "] = @" ++ col)
                            (keys data))
       ++ nl ++ "    ")
     ++ ("WHERE " ++ whereClause ++ ";")
     ++ (nl ++ "    SELECT @@ROWCOUNT AS affectedRows;" ++ nl ++ "  ")).
Proof. cbn [buildUpdateQuery fst]. rewrite !append_assoc. reflexivity. Qed.

Lemma buildDeleteQuery_text (schema table whereClause : string)
      (whereParams : record value) :
  fst (buildDeleteQuery schema table whereClause whereParams) =
  ((nl ++ "    DELETE FROM [" ++ schema ++ "].[" ++ table ++ "]" ++ nl
       ++ "    ")
     ++ ("WHERE " ++ whereClause ++ ";")
     ++ (nl ++ "    SELECT @@ROWCOUNT AS affectedRows;" ++ nl ++ "  ")).
Proof. cbn [buildDeleteQuery fst]. rewrite !append_assoc. reflexivity. Qed.

(** The UPDATE and DELETE builders put the WHERE text into the
    statement as it is, whatever it contains; the values of the maps do
    not reach the text, and [buildDeleteQuery] returns its parameters
    unchanged. *)
Theorem where_text_is_embedded_as_it_is
        (schema table whereClause : string) :
  (forall (data whereParams : record value),
     JS.includes
       (fst (buildUpdateQuery schema table data whereClause whereParams))
       ("WHERE " ++ whereClause ++ ";") = true) /\
  (forall (whereParams : record value),
     JS.includes
       (fst (buildDeleteQuery schema table whereClause whereParams))
       ("WHERE " ++ whereClause ++ ";") = true) /\
  (forall (d1 d2 p1 p2 : record value),
     keys d1 = keys d2 ->
     fst (buildUpdateQuery schema table d1 whereClause p1) =
     fst (buildUpdateQuery schema table d2 whereClause p2)) /\
  (forall (p1 p2 : record value),
     fst (buildDeleteQuery schema table whereClause p1) =
     fst (buildDeleteQuery schema table whereClause p2) /\
     snd (buildDeleteQuery schema table whereClause p1) = p1).
Proof.
  repeat split.
  - intros data whereParams. rewrite buildUpdateQuery_text.
    apply includes_app_r. apply includes_self.
  - intros whereParams. rewrite buildDeleteQuery_text.
    apply includes_app_r. apply includes_self.
  - intros d1 d2 p1 p2 Hk. cbn [buildUpdateQuery fst]. rewrite Hk. reflexivity.
Qed.

(** ** The statements and the gate *)

Local Abbreviation collapse := (replaceFrom flag_g whiteSpaceRun " ").

Lemma lineComment_not_at (prev : option ascii) (c : ascii) (s : string) :
  notOpener c = true -> matchAt flag_gm lineComment prev (String c s) = None.
Proof.
  intros H. unfold matchAt, lineComment. cbn [run].
  apply chars_first_mismatch. unfold sameChar. cbn [ignoreCase flag_gm].
  unfold notOpener in H. apply andb_prop in H. destruct H as [H _].
  apply negb_true_iff in H. exact H.
Qed.

Lemma blockComment_not_at (prev : option ascii) (c : ascii) (s : string) :
  notOpener c = true -> matchAt flag_g blockComment prev (String c s) = None.
Proof.
  intros H. unfold matchAt, blockComment. cbn [run].
  apply chars_first_mismatch. unfold sameChar. cbn [ignoreCase flag_g].
  unfold notOpener in H. apply andb_prop in H. destruct H as [_ H].
  apply negb_true_iff in H. exact H.
Qed.

(** A head of the text that opens no comment is kept by
    [removeComments]. *)
Lemma removeComments_head (head rest : string) :
  allChars notOpener head = true ->
  exists rest', removeComments (head ++ rest) = (head ++ rest')%string.
Proof.
  intros H. unfold removeComments, replace.
  rewrite (replaceFrom_copy flag_gm lineComment "" notOpener head rest None
             lineComment_not_at H).
  rewrite (replaceFrom_copy flag_g blockComment "" notOpener head _ None
             blockComment_not_at H).
  eexists. reflexivity.
Qed.

Lemma whiteSpaceRun_not_at (prev : option ascii) (c : ascii) (s : string) :
  negb (JS.isWhiteSpace c) = true ->
  matchAt flag_g whiteSpaceRun prev (String c s) = None.
Proof.
  intros H. apply negb_true_iff in H.
  unfold matchAt, whiteSpaceRun. cbn [run]. unfold space. rewrite H.
  reflexivity.
Qed.

Lemma trimEnd_word (word x : string) :
  allChars (fun c => negb (JS.isWhiteSpace c)) word = true ->
  JS.trimEnd (word ++ x) = (word ++ JS.trimEnd x)%string.
Proof.
  induction word as [| c word IH]; [reflexivity |].
  cbn [allChars append JS.trimEnd]. intros H. apply andb_prop in H.
  destruct H as [Hc H]. apply negb_true_iff in Hc.
  rewrite (IH H), Hc. destruct (word ++ JS.trimEnd x)%string; reflexivity.
Qed.

Lemma toUpperCase_app (a b : string) :
  JS.toUpperCase (a ++ b) = (JS.toUpperCase a ++ JS.toUpperCase b)%string.
Proof.
  induction a as [| c a IH]; [reflexivity |].
  cbn [append JS.toUpperCase]. rewrite IH, append_assoc. reflexivity.
Qed.

Lemma plainChar_parts (word : string) :
  allChars plainChar word = true ->
  allChars notOpener word = true /\
  allChars (fun c => negb (JS.isWhiteSpace c)) word = true.
Proof.
  induction word as [| c word IH]; [split; reflexivity |].
  cbn [allChars]. intros H. apply andb_prop in H. destruct H as [Hc H].
  destruct (IH H) as [H1 H2]. rewrite H1, H2.
  unfold plainChar in Hc. unfold notOpener.
  destruct (JS.isWhiteSpace c), (Ascii.eqb "-" c), (Ascii.eqb "/" c);
    try discriminate. split; reflexivity.
Qed.

(** The normalized text of a statement that starts with a line break,
    four spaces, a word and a space starts with that word in upper
    case, followed by nothing or by a space. *)
Lemma normalizeQuery_leading_word (word rest : string) :
  word <> EmptyString -> allChars plainChar word = true ->
  exists tail,
    normalizeQuery (nl ++ "    " ++ word ++ " " ++ rest) =
      (JS.toUpperCase word ++ tail)%string /\
    (tail = EmptyString \/ exists t, tail = String " " t).
Proof.
  intros Hne Hword. destruct (plainChar_parts word Hword) as [Hopen Hws].
  unfold normalizeQuery.
  assert (Hhead : allChars notOpener (nl ++ "    " ++ word ++ " ") = true).
  { change (nl ++ "    " ++ word ++ " ")%string
      with ((nl ++ "    ") ++ word ++ " ")%string.
    rewrite !allChars_app, Hopen. reflexivity. }
  assert (Hshape : (nl ++ "    " ++ word ++ " " ++ rest)%string
                   = ((nl ++ "    " ++ word ++ " ") ++ rest)%string).
  { change (nl ++ "    " ++ word ++ " " ++ rest)%string
      with ((nl ++ "    ") ++ word ++ " " ++ rest)%string.
    change (nl ++ "    " ++ word ++ " ")%string
      with ((nl ++ "    ") ++ word ++ " ")%string.
    rewrite !append_assoc. reflexivity. }
  rewrite Hshape.
  destruct (removeComments_head _ rest Hhead) as (rest' & ->).
  unfold replace.
  change ((nl ++ "    " ++ word ++ " ") ++ rest')%string
    with ((nl ++ "    ") ++ (word ++ " ") ++ rest')%string.
  rewrite (replaceFrom_match flag_g whiteSpaceRun " " (nl ++ "    ")
             ((word ++ " ") ++ rest') None).
  2: discriminate.
  2: { destruct word as [| c word]; [contradiction |].
       cbn [allChars] in Hws. apply andb_prop in Hws. destruct Hws as [Hc _].
       apply negb_true_iff in Hc.
       exact (starGreedy_run space accept "    "
                ((String c word ++ " ") ++ rest') (Some JS.LF) 1 5
                eq_refl eq_refl Hc). }
  cbn [global flag_g]. rewrite append_assoc.
  rewrite (replaceFrom_copy flag_g whiteSpaceRun " "
             (fun c => negb (JS.isWhiteSpace c)) word _ _
             whiteSpaceRun_not_at Hws).
  set (x := collapse _ (" " ++ rest') 0 true).
  assert (Hx : exists x', x = String " " x').
  { subst x.
    destruct (whiteSpaceRun_matchAt
                (lastChar (lastChar None (nl ++ "    ")) word) (" " ++ rest'))
      as [(t & s' & E & Ht & Hm & _) | [_ Hs]]; [| discriminate].
    rewrite E.
    rewrite (replaceFrom_match flag_g whiteSpaceRun " " t s' _ Ht).
    - eexists. reflexivity.
    - rewrite <- E. exact Hm. }
  destruct Hx as (x' & Hx). unfold JS.trim.
  assert (Hstart : JS.trimStart (" " ++ word ++ x) = (word ++ x)%string).
  { destruct word as [| c word]; [contradiction |].
    cbn [allChars] in Hws. apply andb_prop in Hws. destruct Hws as [Hc _].
    apply negb_true_iff in Hc. cbn [append JS.trimStart].
    change (JS.isWhiteSpace " ") with true. cbv iota. rewrite Hc. reflexivity. }
  rewrite Hstart, (trimEnd_word word x Hws), toUpperCase_app.
  eexists. split; [reflexivity |].
  destruct (JS.trimEnd x) as [| c t] eqn:Et; [left; reflexivity | right].
  destruct (trimEnd_head _ _ _ Et) as (t' & Ex).
  rewrite Hx in Ex. injection Ex as <- _.
  eexists. reflexivity.
Qed.

Lemma leading_word_verdict (word tail : string) :
  In word [ "INSERT"; "UPDATE"; "DELETE" ] ->
  (tail = EmptyString \/ exists t, tail = String " " t) ->
  forall q, normalizeQuery q = (word ++ tail)%string ->
  isWriteOperation q = true /\ validateQuery q = leadingKeywordVerdict word.
Proof.
  intros Hin Htail q Hn.
  assert (Hw : isWriteOperation q = true).
  { unfold isWriteOperation. rewrite Hn. cbn [In] in Hin.
    destruct Hin as [<- | [<- | [<- | []]]]; reflexivity. }
  split; [exact Hw |].
  rewrite (isWriteOperation_verdict q Hw), Hn. f_equal.
  cbn [In] in Hin.
  destruct Htail as [-> | (t & ->)];
    destruct Hin as [<- | [<- | [<- | []]]]; reflexivity.
Qed.

(** The statements the three builders produce are write operations
    for [isWriteOperation], and the gate rejects them for their leading
    keyword, whatever identifiers, column names and WHERE text they are
    built from. *)
Theorem builder_statements_are_rejected
        (schema table whereClause : string) (data whereParams : record value) :
  (isWriteOperation (fst (buildInsertQuery schema table data)) = true /\
   validateQuery (fst (buildInsertQuery schema table data))
     = leadingKeywordVerdict "INSERT") /\
  (isWriteOperation
     (fst (buildUpdateQuery schema table data whereClause whereParams)) = true /\
   validateQuery
     (fst (buildUpdateQuery schema table data whereClause whereParams))
     = leadingKeywordVerdict "UPDATE") /\
  (isWriteOperation
     (fst (buildDeleteQuery schema table whereClause whereParams)) = true /\
   validateQuery (fst (buildDeleteQuery schema table whereClause whereParams))
     = leadingKeywordVerdict "DELETE").
Proof.
  split; [| split].
  - cbn [buildInsertQuery fst].
    match goal with
    | |- context [ (Execute.nl ++ "    INSERT INTO [" ++ ?r)%string ] =>
        change (Execute.nl ++ "    INSERT INTO [" ++ r)%string
          with (nl ++ "    " ++ "INSERT" ++ " " ++ ("INTO [" ++ r))%string;
        destruct (normalizeQuery_leading_word "INSERT" ("INTO [" ++ r))
          as (tail & Hn & Htail); [discriminate | reflexivity |]
    end.
    apply (leading_word_verdict "INSERT" tail); [cbn [In]; tauto | | ]; assumption.
  - cbn [buildUpdateQuery fst].
    match goal with
    | |- context [ (Execute.nl ++ "    UPDATE [" ++ ?r)%string ] =>
        change (Execute.nl ++ "    UPDATE [" ++ r)%string
          with (nl ++ "    " ++ "UPDATE" ++ " " ++ ("[" ++ r))%string;
        destruct (normalizeQuery_leading_word "UPDATE" ("[" ++ r))
          as (tail & Hn & Htail); [discriminate | reflexivity |]
    end.
    apply (leading_word_verdict "UPDATE" tail); [cbn [In]; tauto | | ]; assumption.
  - cbn [buildDeleteQuery fst].
    match goal with
    | |- context [ (Execute.nl ++ "    DELETE FROM [" ++ ?r)%string ] =>
        change (Execute.nl ++ "    DELETE FROM [" ++ r)%string
          with (nl ++ "    " ++ "DELETE" ++ " " ++ ("FROM [" ++ r))%string;
        destruct (normalizeQuery_leading_word "DELETE" ("FROM [" ++ r))
          as (tail & Hn & Htail); [discriminate | reflexivity |]
    end.
    apply (leading_word_verdict "DELETE" tail); [cbn [In]; tauto | | ]; assumption.
Qed.

End BuilderFacts.

(* ================================================================== *)
(** * Properties of the logger's redaction *)
(* ================================================================== *)

Module LoggerFacts.
Import Execute Logger Shapes.

Section Induction.
Variable P : unknown -> Prop.
Hypothesis Hnull : P UNull.
Hypothesis Hundefined : P UUndefined.
Hypothesis Hboolean : forall b, P (UBoolean b).
Hypothesis Hnumber : forall x, P (UNumber x).
Hypothesis Hstring : forall s, P (UString s).
Hypothesis Hfunction : P UFunction.
Hypothesis Harray : forall items, Forall P items -> P (UArray items).
Hypothesis Hobject :
  forall fields, Forall (fun kv => P (snd kv)) fields -> P (UObject fields).

(** Induction on a value, with the hypothesis for every item of an
    array and every property of an object. *)
Fixpoint unknown_induction (v : unknown) : P v :=
  match v with
  | UNull => Hnull
  | UUndefined => Hundefined
  | UBoolean b => Hboolean b
  | UNumber x => Hnumber x
  | UString s => Hstring s
  | UFunction => Hfunction
  | UArray items =>
      Harray items
        ((fix all (l : list unknown) : Forall P l :=
            match l with
            | [] => Forall_nil P
            | x :: l' => Forall_cons x (unknown_induction x) (all l')
            end) items)
  | UObject fields =>
      Hobject fields
        ((fix all (l : list (string * unknown))
            : Forall (fun kv => P (snd kv)) l :=
            match l with
            | [] => Forall_nil _
            | kv :: l' =>
                Forall_cons (P := fun kv => P (snd kv)) kv
                            (unknown_induction (snd kv)) (all l')
            end) fields)
  end.
End Induction.

Lemma sanitizeValue_object (fields : list (string * unknown)) :
  sanitizeValue (UObject fields) = UObject (sanitizeData fields).
Proof. reflexivity. Qed.

Lemma sanitizeData_cons (kv : string * unknown)
      (data : list (string * unknown)) :
  sanitizeData (kv :: data) =
  (sanitizeEntry sanitizeValue kv ++ sanitizeData data)%list.
Proof. reflexivity. Qed.

Lemma sanitizeValue_idempotent (v : unknown) :
  sanitizeValue (sanitizeValue v) = sanitizeValue v.
Proof.
  induction v as [| | | | | | items _ | fields IH] using unknown_induction;
    try reflexivity.
  rewrite !sanitizeValue_object. f_equal.
  induction fields as [| [k x] fields IHf]; [reflexivity |].
  inversion IH as [| ? ? Hx Hrest]; subst. cbn [snd] in Hx.
  rewrite sanitizeData_cons. cbn [sanitizeEntry]. unfold assign.
  destruct (isSensitive k) eqn:Hs; destruct (String.eqb k "__proto__") eqn:Hp;
    cbn [app]; try exact (IHf Hrest);
    rewrite sanitizeData_cons; cbn [sanitizeEntry]; unfold assign;
    rewrite Hs, Hp; cbn [app]; rewrite (IHf Hrest); [reflexivity |].
  rewrite Hx. reflexivity.
Qed.

(** Sanitizing data that has been sanitized changes nothing. *)
Theorem sanitizeData_idempotent (data : list (string * unknown)) :
  sanitizeData (sanitizeData data) = sanitizeData data.
Proof.
  pose proof (sanitizeValue_idempotent (UObject data)) as H.
  rewrite !sanitizeValue_object in H. injection H as H. exact H.
Qed.

Lemma sanitizeData_In (data : list (string * unknown)) (key : string)
      (v : unknown) :
  In (key, v) (sanitizeData data) <->
  exists v0, In (key, v0) data /\ key <> "__proto__"%string /\
             v = if isSensitive key then REDACTED else sanitizeValue v0.
Proof.
  unfold sanitizeData. rewrite in_flat_map. split.
  - intros ([k v0] & Hin & H). cbn [sanitizeEntry] in H. unfold assign in H.
    destruct (String.eqb_spec k "__proto__") as [| Hp];
      [destruct (isSensitive k); contradiction |].
    destruct (isSensitive k) eqn:Hs; cbn [In] in H;
      destruct H as [E | []]; injection E as -> <-;
      exists v0; rewrite Hs; auto.
  - intros (v0 & Hin & Hp & ->). exists (key, v0). split; [exact Hin |].
    cbn [sanitizeEntry]. unfold assign.
    destruct (String.eqb_spec key "__proto__") as [| _]; [contradiction |].
    destruct (isSensitive key); left; reflexivity.
Qed.

Lemma redacted_at_depth (out : list (string * unknown)) (key : string)
      (v : unknown) :
  FieldAt out key v ->
  forall data, out = sanitizeData data ->
  isSensitive key = true -> v = REDACTED.
Proof.
  induction 1 as [out key v Hin | out inner outer key v Hin Hat IH];
    intros data -> Hs.
  - apply sanitizeData_In in Hin. destruct Hin as (v0 & _ & _ & ->).
    rewrite Hs. reflexivity.
  - apply sanitizeData_In in Hin. destruct Hin as (v0 & _ & _ & E).
    destruct (isSensitive outer); [discriminate |].
    destruct v0 as [| | | | | | | inner0]; try discriminate.
    rewrite sanitizeValue_object in E. injection E as ->.
    exact (IH inner0 eq_refl Hs).
Qed.

(** In sanitized data, every property whose key contains a sensitive
    word, in any letter case, holds the marker, in the data itself and
    in every object nested in it through properties.  The keys are those
    of the data, except [__proto__], which is dropped.  An array under
    a key that is not sensitive is kept as it is, with whatever its
    items hold. *)
Theorem sanitizeData_redacts_nested_objects (data : list (string * unknown)) :
  (forall key v, FieldAt (sanitizeData data) key v ->
                 isSensitive key = true -> v = REDACTED) /\
  (forall key, In key (map fst (sanitizeData data)) <->
               In key (map fst data) /\ key <> "__proto__"%string) /\
  (forall key items, In (key, UArray items) data -> isSensitive key = false ->
                     key <> "__proto__"%string ->
                     In (key, UArray items) (sanitizeData data)).
Proof.
  split; [| split].
  - intros key v Hat Hs. exact (redacted_at_depth _ key v Hat data eq_refl Hs).
  - intros key. rewrite !in_map_iff. split.
    + intros ([k v] & E & Hin). cbn [fst] in E. subst k.
      apply sanitizeData_In in Hin. destruct Hin as (v0 & Hin & Hp & _).
      split; [exists (key, v0); split; [reflexivity | exact Hin] | exact Hp].
    + intros (([k v0] & E & Hin) & Hp). cbn [fst] in E. subst k.
      eexists (key, _). split; [reflexivity |].
      apply sanitizeData_In. exists v0. split; [exact Hin |].
      split; [exact Hp | reflexivity].
  - intros key items Hin Hs Hp. apply sanitizeData_In.
    exists (UArray items). rewrite Hs. auto.
Qed.

(** The theorem on a nested connection record. *)
Lemma sanitizeData_witness :
  sanitizeData
    [ ("server", UString "db1");
      ("connection", UObject [ ("user", UString "sa");
                               ("Password", UString "hunter2") ]) ] =
    [ ("server", UString "db1");
      ("connection", UObject [ ("user", UString "sa");
                               ("Password", REDACTED) ]) ] /\
  (forall v,
     FieldAt
       (sanitizeData
          [ ("server", UString "db1");
            ("connection", UObject [ ("user", UString "sa");
                                     ("Password", UString "hunter2") ]) ])
       "Password" v -> v = REDACTED).
Proof.
  split; [vm_compute; reflexivity |].
  intros v Hat.
  exact (proj1 (sanitizeData_redacts_nested_objects _) "Password" v Hat
               eq_refl).
Defined.

End LoggerFacts.

(* ================================================================== *)
(** * Properties of the formatters *)
(* ================================================================== *)

Module FormatterFacts.
Import Formatters RegexFacts.

Local Open Scope Z_scope.

Lemma take_length (n : nat) (s : string) :
  String.length (JS.take n s) = Nat.min n (String.length s).
Proof.
  revert s. induction n as [| n IH]; intros [| c s]; cbn [JS.take String.length];
    try reflexivity.
  rewrite IH. reflexivity.
Qed.

Lemma take_prefix (n : nat) (s : string) :
  JS.startsWith s (JS.take n s) = true.
Proof.
  revert s. induction n as [| n IH]; intros [| c s]; cbn [JS.take JS.startsWith];
    try reflexivity.
  rewrite Ascii.eqb_refl. apply IH.
Qed.

(** [truncate] returns a text of at most [maxLength] characters as it
    is.  A longer text is cut to its first [maxLength - 3] characters
    followed by three dots, which makes [maxLength] characters when
    [maxLength] is 3 or more, and three characters, more than asked
    for, when it is less. *)
Theorem truncate_length (str : string) (maxLength : Z) :
  (Z.of_nat (String.length str) <= maxLength -> truncate str maxLength = str) /\
  (maxLength < Z.of_nat (String.length str) ->
   exists kept,
     truncate str maxLength = (kept ++ "...")%string /\
     JS.startsWith str kept = true /\
     Z.of_nat (String.length (truncate str maxLength)) = Z.max maxLength 3).
Proof.
  unfold truncate. split; intros H.
  - destruct (Z.leb_spec (Z.of_nat (String.length str)) maxLength); [reflexivity | lia].
  - destruct (Z.leb_spec (Z.of_nat (String.length str)) maxLength); [lia |].
    eexists. split; [reflexivity |]. split; [apply take_prefix |].
    rewrite length_append, take_length. cbn [String.length]. lia.
Qed.

Lemma truncate_witness :
  truncate "hello world" 8 = "hello..." /\ truncate "hello" 2 = "...".
Proof.
  split.
  - destruct (proj2 (truncate_length "hello world" 8) eq_refl)
      as (kept & E & _). reflexivity.
  - destruct (proj2 (truncate_length "hello" 2) eq_refl) as (kept & _).
    reflexivity.
Defined.

End FormatterFacts.

(* ================================================================== *)
(** * Properties of the tools *)
(* ================================================================== *)

Module ToolFacts.
Import QueryValidator Errors Execute Formatters Logger Tools Notions Shapes.
Import ExecuteFacts ExecuteMore.

Local Open Scope Z_scope.

(** ** The write tools in read-only mode *)

(** In read-only mode each write tool answers with an error that names
    its operation, whatever the arguments are: the arguments are not
    parsed, no statement is built and nothing is called. *)
Theorem write_tools_refuse_in_readonly
        (d : driver) (stringifyWrite : WritePayload -> string)
        (parseInsert : unknown -> thrown + (string * string * record value))
        (parseUpdate : unknown ->
           thrown + (string * string * record value * string * record value))
        (parseDelete : unknown ->
           thrown + (string * string * string * record value))
        (args : unknown) (w : world) :
  sqlInsert true d stringifyWrite parseInsert args w =
    (w, inr (mkToolResponse (refusalText "INSERT") true)) /\
  sqlUpdate true d stringifyWrite parseUpdate args w =
    (w, inr (mkToolResponse (refusalText "UPDATE") true)) /\
  sqlDelete true d stringifyWrite parseDelete args w =
    (w, inr (mkToolResponse (refusalText "DELETE") true)).
Proof.
  repeat split; reflexivity.
Qed.

(** ** Arguments the schema refuses *)

(** When the schema refuses the arguments, a tool answers with the
    message of the schema's error and calls nothing: neither the
    validator nor the driver sees a statement. *)
Theorem refused_arguments_are_not_run
        (READONLY : bool) (d : driver)
        (stringifyExecute : ExecutePayload -> string)
        (stringifyWrite : WritePayload -> string)
        (parseExecute : unknown -> thrown + (string * record value * number))
        (parseInsert : unknown -> thrown + (string * string * record value))
        (parseUpdate : unknown ->
           thrown + (string * string * record value * string * record value))
        (parseDelete : unknown ->
           thrown + (string * string * string * record value))
        (args : unknown) (w : world) (error : thrown) :
  (parseExecute args = inl error ->
   sqlExecute READONLY d stringifyExecute parseExecute args w =
     (w, inr (formatError error))) /\
  (parseInsert args = inl error ->
   sqlInsert false d stringifyWrite parseInsert args w =
     (w, inr (formatError error))) /\
  (parseUpdate args = inl error ->
   sqlUpdate false d stringifyWrite parseUpdate args w =
     (w, inr (formatError error))) /\
  (parseDelete args = inl error ->
   sqlDelete false d stringifyWrite parseDelete args w =
     (w, inr (formatError error))).
Proof.
  repeat split; intros H.
  - unfold sqlExecute, tryCatch. unfold bind at 1. rewrite H. reflexivity.
  - unfold sqlInsert, tryCatch. unfold bind at 1. cbn [ret].
    unfold bind at 1. rewrite H. reflexivity.
  - unfold sqlUpdate, tryCatch. unfold bind at 1. cbn [ret].
    unfold bind at 1. rewrite H. reflexivity.
  - unfold sqlDelete, tryCatch. unfold bind at 1. cbn [ret].
    unfold bind at 1. rewrite H. reflexivity.
Qed.

Lemma refused_arguments_witness :
  sqlExecute true tenRows printExecute
             (refuseAll (PlainError "Expected string, received number"))
             UNull (mkWorld 0 []) =
    (mkWorld 0 [],
     inr (mkToolResponse "Error: Expected string, received number" true)).
Proof.
  exact (proj1 (refused_arguments_are_not_run true tenRows printExecute
                  printWrite (refuseAll (PlainError "Expected string, received number"))
                  (refuseAll NotAnError) (refuseAll NotAnError)
                  (refuseAll NotAnError) UNull (mkWorld 0 [])
                  (PlainError "Expected string, received number"))
               eq_refl).
Defined.

(** ** Empty data *)

(** [sqlInsert] and [sqlUpdate] answer a request whose data has no
    property with an error, and call nothing. *)
Theorem empty_data_is_refused
        (d : driver) (stringifyWrite : WritePayload -> string)
        (parseInsert : unknown -> thrown + (string * string * record value))
        (parseUpdate : unknown ->
           thrown + (string * string * record value * string * record value))
        (args : unknown) (w : world) (table schema whereClause : string)
        (params : record value) :
  (parseInsert args = inr (table, schema, []) ->
   sqlInsert false d stringifyWrite parseInsert args w =
     (w, inr (mkToolResponse "Error: Data object cannot be empty" true))) /\
  (parseUpdate args = inr (table, schema, [], whereClause, params) ->
   sqlUpdate false d stringifyWrite parseUpdate args w =
     (w, inr (mkToolResponse "Error: Data object cannot be empty" true))).
Proof.
  split; intros H.
  - unfold sqlInsert, tryCatch. unfold bind at 1. cbn [ret].
    unfold bind at 1. rewrite H. reflexivity.
  - unfold sqlUpdate, tryCatch. unfold bind at 1. cbn [ret].
    unfold bind at 1. rewrite H. reflexivity.
Qed.

Lemma empty_data_witness :
  sqlUpdate false tenRows printWrite
            (acceptAs ("t", "dbo", [], "id = @id", [("id", num 1)]))
            UNull (mkWorld 0 []) =
    (mkWorld 0 [],
     inr (mkToolResponse "Error: Data object cannot be empty" true)).
Proof.
  exact (proj2 (empty_data_is_refused tenRows printWrite
                  (acceptAs ("t", "dbo", []))
                  (acceptAs ("t", "dbo", [], "id = @id", [("id", num 1)]))
                  UNull (mkWorld 0 []) "t" "dbo" "id = @id" [("id", num 1)])
               eq_refl).
Defined.

(** ** [sqlExecute] *)

Lemma greaterThan_count (total limit : nat) :
  greaterThan (Z.of_nat total) (ofZ (Z.of_nat limit)) = (limit <? total)%nat.
Proof.
  unfold greaterThan, ofZ. cbn [Z.leb Z.compare].
  change (2 ^ 0) with 1. rewrite Z.mul_1_r.
  destruct (Z.ltb_spec (Z.of_nat limit) (Z.of_nat total));
    destruct (Nat.ltb_spec limit total); try reflexivity; lia.
Qed.

(** When the query runs, [sqlExecute] answers with the first [limit]
    rows, the number of rows the driver returned, and a flag that is
    set exactly when that number is above the limit, that is when rows
    have been left out. *)
Theorem sqlExecute_truncated_flag
        (READONLY : bool) (d : driver)
        (stringifyExecute : ExecutePayload -> string)
        (parseExecute : unknown -> thrown + (string * record value * number))
        (args : unknown) (w : world) (query : string) (params : record value)
        (limit : nat) (dt : Z) (result : driverResult) :
  parseExecute args = inr (query, params, ofZ (Z.of_nat limit)) ->
  (READONLY = false \/ valid (validateQuery query) = true) ->
  connect d = None ->
  answer d query (inputsOf params) = (dt, inr result) ->
  exists payload,
    snd (sqlExecute READONLY d stringifyExecute parseExecute args w) =
      inr (mkToolResponse (stringifyExecute payload) false) /\
    payloadRows payload = firstn limit (rowsOf result) /\
    payloadRowCount payload = Z.of_nat (List.length (rowsOf result)) /\
    truncated payload = (limit <? List.length (rowsOf result))%nat /\
    (truncated payload = true <->
     (List.length (payloadRows payload) < List.length (rowsOf result))%nat).
Proof.
  intros Hparse Hgate Hpool Hans.
  unfold sqlExecute, tryCatch. unfold bind at 1. rewrite Hparse.
  cbn [parsed ret]. unfold bind at 1.
  rewrite (executeQuery_run READONLY d query params _ w Hgate Hpool).
  rewrite Hans. cbn [fst snd]. cbv zeta. cbn [ret snd].
  eexists. split; [unfold formatSuccess; reflexivity |].
  cbn [payloadRows payloadRowCount truncated rows rowCount].
  rewrite slice0_count, greaterThan_count.
  repeat split; try reflexivity.
  - intros H. apply Nat.ltb_lt in H. rewrite length_firstn. lia.
  - intros H. rewrite length_firstn in H. apply Nat.ltb_lt. lia.
Qed.

Lemma sqlExecute_truncated_witness :
  exists payload,
    snd (sqlExecute true tenRows printExecute
                    (acceptAs ("SELECT n FROM t", [], ofZ (Z.of_nat 3)))
                    UNull (mkWorld 0 [])) =
      inr (mkToolResponse (printExecute payload) false) /\
    payloadRows payload =
      firstn 3 (map (fun i => [("n", num i)]) [1; 2; 3; 4; 5; 6; 7; 8; 9; 10]) /\
    payloadRowCount payload = 10 /\
    truncated payload = true /\
    (truncated payload = true <->
     (List.length (payloadRows payload) < 10)%nat).
Proof.
  exact (sqlExecute_truncated_flag true tenRows printExecute
           (acceptAs ("SELECT n FROM t", [], ofZ (Z.of_nat 3)))
           UNull (mkWorld 0 []) "SELECT n FROM t" [] 3 5
           (mkDriverResult
              (Some (mkRecordset
                       (map (fun i => [("n", num i)])
                            [1; 2; 3; 4; 5; 6; 7; 8; 9; 10])
                       None))
              [])
           eq_refl (or_intror eq_refl) eq_refl eq_refl).
Defined.

(** In read-only mode [sqlExecute] answers a query the validator
    rejects with the reason of the verdict after [Error: ], and the
    only call made is the one to the validator. *)
Theorem sqlExecute_rejected_query
        (d : driver) (stringifyExecute : ExecutePayload -> string)
        (parseExecute : unknown -> thrown + (string * record value * number))
        (args : unknown) (w : world) (query : string) (params : record value)
        (maxRows : number) :
  parseExecute args = inr (query, params, maxRows) ->
  valid (validateQuery query) = false ->
  exists r,
    reason (validateQuery query) = Some r /\
    sqlExecute true d stringifyExecute parseExecute args w =
      (mkWorld (clock w) (CallValidateQuery query :: trace w),
       inr (mkToolResponse ("Error: " ++ r) true)).
Proof.
  intros Hparse Hv. destruct (rejected_has_reason query Hv) as (r & Hr & Ht).
  exists r. split; [exact Hr |].
  unfold sqlExecute, tryCatch. unfold bind at 1. rewrite Hparse.
  cbn [parsed ret]. unfold bind at 1.
  rewrite (executeQuery_refused_run d query params maxRows w r Hv Hr Ht).
  reflexivity.
Qed.

Lemma sqlExecute_rejected_witness :
  exists r,
    reason (validateQuery "DELETE FROM users") = Some r /\
    sqlExecute true tenRows printExecute
               (acceptAs ("DELETE FROM users", [], ofZ 100))
               UNull (mkWorld 0 []) =
      (mkWorld 0 [CallValidateQuery "DELETE FROM users"],
       inr (mkToolResponse ("Error: " ++ r) true)).
Proof.
  exact (sqlExecute_rejected_query tenRows printExecute
           (acceptAs ("DELETE FROM users", [], ofZ 100))
           UNull (mkWorld 0 []) "DELETE FROM users" [] (ofZ 100)
           eq_refl eq_refl).
Defined.

(** When no pool can be had, [sqlExecute] answers with the message of
    the driver behind a fixed prefix, as it is: what [getErrorMessage]
    redacts in the message of a plain error is not redacted here, since
    the failure has been wrapped in a [ConnectionError]. *)
Theorem sqlExecute_connection_failure_text
        (READONLY : bool) (d : driver)
        (stringifyExecute : ExecutePayload -> string)
        (parseExecute : unknown -> thrown + (string * record value * number))
        (args : unknown) (w : world) (query : string) (params : record value)
        (maxRows : number) (failure : string) :
  parseExecute args = inr (query, params, maxRows) ->
  (READONLY = false \/ valid (validateQuery query) = true) ->
  connect d = Some failure ->
  JS.includes ("Failed to connect to SQL Server: " ++ failure) "timeout"
    = false ->
  JS.includes ("Failed to connect to SQL Server: " ++ failure) "Timeout"
    = false ->
  snd (sqlExecute READONLY d stringifyExecute parseExecute args w) =
    inr (mkToolResponse
           ("Error: Failed to connect to SQL Server: " ++ failure) true).
Proof.
  intros Hparse Hgate Hpool Ht1 Ht2.
  unfold sqlExecute, tryCatch. unfold bind at 1. rewrite Hparse.
  cbn [parsed ret]. unfold bind at 1.
  pose proof (executeQuery_no_pool_run READONLY d query params maxRows w
                failure Hgate Hpool) as Hrun.
  cbv zeta in Hrun. rewrite Hrun. rewrite Ht1, Ht2. reflexivity.
Qed.

Lemma sqlExecute_connection_failure_witness :
  snd (sqlExecute true noPool printExecute
                  (acceptAs ("SELECT 1", [], ofZ 100)) UNull (mkWorld 0 [])) =
    inr (mkToolResponse
           "Error: Failed to connect to SQL Server: Login failed for user 'sa'"
           true).
Proof.
  exact (sqlExecute_connection_failure_text true noPool printExecute
           (acceptAs ("SELECT 1", [], ofZ 100)) UNull (mkWorld 0 [])
           "SELECT 1" [] (ofZ 100) "Login failed for user 'sa'"
           eq_refl (or_intror eq_refl) eq_refl eq_refl eq_refl).
Defined.

(** ** The write tools outside read-only mode *)

(** Outside read-only mode [sqlInsert] sends the statement of
    [buildInsertQuery] with the data as its parameters.  It reports the
    table with its schema and the first count of the driver; when the
    driver fails it answers with the message [getErrorMessage] makes
    of the failure. *)
Theorem sqlInsert_runs_the_built_statement
        (d : driver) (stringifyWrite : WritePayload -> string)
        (parseInsert : unknown -> thrown + (string * string * record value))
        (args : unknown) (w : world) (table schema : string)
        (data : record value) (dt : Z) (outcome : thrown + driverResult) :
  parseInsert args = inr (table, schema, data) ->
  data <> [] ->
  connect d = None ->
  answer d (fst (buildInsertQuery schema table data)) (inputsOf data)
    = (dt, outcome) ->
  snd (sqlInsert false d stringifyWrite parseInsert args w) =
    inr match outcome with
        | inr result =>
            mkToolResponse
              (stringifyWrite
                 (mkWritePayload true (schema ++ "." ++ table)
                    (hd 0 (rowsAffected result))
                    (showZ (clock w + dt - clock w) ++ "ms")))
              false
        | inl error => mkToolResponse ("Error: " ++ getErrorMessage error) true
        end.
Proof.
  intros Hparse Hdata Hpool Hans.
  unfold sqlInsert, tryCatch. unfold bind at 1. cbn [ret].
  unfold bind at 1. rewrite Hparse. cbn [parsed ret].
  destruct data as [| kv data']; [contradiction |].
  cbn [keys map List.length Nat.eqb].
  change (buildInsertQuery schema table (kv :: data'))
    with (fst (buildInsertQuery schema table (kv :: data')), kv :: data').
  cbv iota beta. unfold bind at 1.
  rewrite (executeWrite_run d _ (kv :: data') _ Hpool).
  rewrite Hans. cbn [fst snd]. cbv zeta.
  destruct outcome as [error | result]; reflexivity.
Qed.

Lemma sqlInsert_witness :
  snd (sqlInsert false tenRows printWrite
                 (acceptAs ("users", "dbo", [("name", VString "Ann")]))
                 UNull (mkWorld 0 [])) =
    inr (mkToolResponse "dbo.users: 0" false).
Proof.
  rewrite (sqlInsert_runs_the_built_statement tenRows printWrite
             (acceptAs ("users", "dbo", [("name", VString "Ann")]))
             UNull (mkWorld 0 []) "users" "dbo" [("name", VString "Ann")] 5
             (inr (mkDriverResult
                     (Some (mkRecordset
                              (map (fun i => [("n", num i)])
                                   [1; 2; 3; 4; 5; 6; 7; 8; 9; 10])
                              None))
                     [])));
    [reflexivity | reflexivity | discriminate | reflexivity | reflexivity].
Defined.

End ToolFacts.
